(** * mdtogo: markdown documentation to Go string variables

    A shallow embedding of [cmd/mdtogo/main.go] and the properties of its
    section parser, argument handling, license resolution and rendering.

    Go strings are byte sequences: they are modelled by [string], whose
    characters are the 256 values of [ascii].  The functions of the Go
    standard library that the program calls are modelled in [Module Go];
    the program itself follows in [Module Mdtogo]. *)

From Stdlib Require Import String Ascii List Bool NArith ZArith Lia.
Import ListNotations.

Local Open Scope string_scope.
Local Open Scope list_scope.

(** ** Characters the program names *)

Definition TAB : ascii := "009"%char.
Definition LF : ascii := "010"%char.
Definition CR : ascii := "013"%char.
Definition DQUOTE : ascii := "034"%char.
Definition BACKTICK : ascii := "`"%char.

Definition str (c : ascii) : string := String c EmptyString.

(** Outcome of a computation that may abort the process. *)
Inductive result (A : Type) : Type :=
| Ok (a : A)
| Err (msg : string).
Arguments Ok {A} a.
Arguments Err {A} msg.

Module Go.

(** *** package strings *)

(** [strings.HasPrefix(s, prefix)]. *)
Definition HasPrefix (s prefix : string) : bool := String.prefix prefix s.

(** [strings.Join(elems, sep)]. *)
Fixpoint Join (elems : list string) (sep : string) : string :=
  match elems with
  | [] => ""
  | [e] => e
  | e :: rest => e ++ sep ++ Join rest sep
  end.

(** Byte width of the UTF-8 sequence at the head of [s], as
    [utf8.DecodeRuneInString] reports it: an invalid or truncated sequence
    has width 1, the empty string width 0. *)
Definition rune_width (s : string) : nat :=
  let cont c := ((128 <=? N_of_ascii c) && (N_of_ascii c <=? 191))%N in
  let between lo c hi := ((lo <=? N_of_ascii c) && (N_of_ascii c <=? hi))%N in
  match s with
  | EmptyString => 0
  | String b0 (String b1 rest) =>
      let n0 := N_of_ascii b0 in
      if (n0 <? 128)%N then 1
      else if between 194%N b0 223%N then (if cont b1 then 2 else 1)
      else
        let second_ok :=
          if (n0 =? 224)%N then between 160%N b1 191%N
          else if (n0 =? 237)%N then between 128%N b1 159%N
          else if between 225%N b0 239%N then cont b1
          else if (n0 =? 240)%N then between 144%N b1 191%N
          else if (n0 =? 244)%N then between 128%N b1 143%N
          else if between 241%N b0 243%N then cont b1
          else false in
        if negb second_ok then 1
        else match rest with
             | String b2 rest' =>
                 if negb (cont b2) then 1
                 else if between 224%N b0 239%N then 3
                 else match rest' with
                      | String b3 _ => if cont b3 then 4 else 1
                      | EmptyString => 1
                      end
             | EmptyString => 1
             end
  | String _ EmptyString => 1
  end.

(** The loop of [strings.Replace] for a non-empty [old]: copy up to the next
    occurrence of [old], write [new], resume after the occurrence.  [skip]
    counts the bytes of the current occurrence still to be passed over. *)
Fixpoint replace_from (old new : string) (skip : nat) (s : string) : string :=
  match s with
  | EmptyString => EmptyString
  | String c s' =>
      match skip with
      | S k => replace_from old new k s'
      | O =>
          if String.prefix old s
          then new ++ replace_from old new (String.length old - 1) s'
          else String c (replace_from old new 0 s')
      end
  end.

(** The loop of [strings.Replace] for an empty [old]: [new] is written before
    every rune and once more at the end. *)
Fixpoint replace_empty (new : string) (skip : nat) (s : string) : string :=
  match s with
  | EmptyString => new
  | String c s' =>
      match skip with
      | S k => String c (replace_empty new k s')
      | O => new ++ String c (replace_empty new (rune_width s - 1) s')
      end
  end.

(** [strings.ReplaceAll(s, old, new)], that is [Replace(s, old, new, -1)]. *)
Definition ReplaceAll (s old new : string) : string :=
  if (old =? new)%string then s
  else if (old =? "")%string then replace_empty new 0 s
  else replace_from old new 0 s.

(** Width of the white-space rune at the head of [s], in bytes; 0 when [s]
    does not start with one.  White space is [unicode.IsSpace]: the six ASCII
    space characters, U+0085, U+00A0, U+1680, U+2000..U+200A, U+2028, U+2029,
    U+202F, U+205F and U+3000, in their UTF-8 encodings. *)
Definition space_width (s : string) : nat :=
  match s with
  | EmptyString => 0
  | String b0 rest =>
      match N_of_ascii b0 with
      | 9%N | 10%N | 11%N | 12%N | 13%N | 32%N => 1
      | 194%N =>
          match rest with
          | String b1 _ =>
              match N_of_ascii b1 with 133%N | 160%N => 2 | _ => 0 end
          | _ => 0
          end
      | 225%N =>
          match rest with
          | String b1 (String b2 _) =>
              if ((N_of_ascii b1 =? 154) && (N_of_ascii b2 =? 128))%N then 3 else 0
          | _ => 0
          end
      | 226%N =>
          match rest with
          | String b1 (String b2 _) =>
              let n2 := N_of_ascii b2 in
              match N_of_ascii b1 with
              | 128%N =>
                  if ((128 <=? n2) && (n2 <=? 138) || (n2 =? 168) || (n2 =? 169)
                      || (n2 =? 175))%N then 3 else 0
              | 129%N => if (n2 =? 159)%N then 3 else 0
              | _ => 0
              end
          | _ => 0
          end
      | 227%N =>
          match rest with
          | String b1 (String b2 _) =>
              if ((N_of_ascii b1 =? 128) && (N_of_ascii b2 =? 128))%N then 3 else 0
          | _ => 0
          end
      | _ => 0
      end
  end.

(** The same for the white-space rune that ends a string, read on the
    reversed string (last byte first), as [utf8.DecodeLastRuneInString]
    finds it. *)
Definition space_width_rev (r : string) : nat :=
  match r with
  | EmptyString => 0
  | String c0 rest =>
      match N_of_ascii c0 with
      | 9%N | 10%N | 11%N | 12%N | 13%N | 32%N => 1
      | _ =>
          match rest with
          | String c1 rest' =>
              if Nat.eqb (space_width (String c1 (String c0 EmptyString))) 2 then 2
              else match rest' with
                   | String c2 _ =>
                       if Nat.eqb (space_width (String c2 (String c1 (String c0 EmptyString)))) 3
                       then 3 else 0
                   | EmptyString => 0
                   end
          | EmptyString => 0
          end
      end
  end.

(** Drop the white-space runes a string starts with; [width] says how wide
    the white-space rune at the head is. *)
Fixpoint trim_with (width : string -> nat) (skip : nat) (s : string) : string :=
  match s with
  | EmptyString => EmptyString
  | String _ s' =>
      match skip with
      | S k => trim_with width k s'
      | O =>
          match width s with
          | O => s
          | S k => trim_with width k s'
          end
      end
  end.

Fixpoint rev_onto (s acc : string) : string :=
  match s with
  | EmptyString => acc
  | String c s' => rev_onto s' (String c acc)
  end.

Definition rev (s : string) : string := rev_onto s EmptyString.

(** [strings.TrimSpace(s)]: leading and trailing white space removed. *)
Definition TrimSpace (s : string) : string :=
  rev (trim_with space_width_rev 0 (rev (trim_with space_width 0 s))).

(** [isSeparator] of package strings for an ASCII character: everything but
    letters, digits and the underscore separates words. *)
Definition isSeparator (c : ascii) : bool :=
  let n := N_of_ascii c in
  if ((48 <=? n) && (n <=? 57))%N then false
  else if ((97 <=? n) && (n <=? 122))%N then false
  else if ((65 <=? n) && (n <=? 90))%N then false
  else if (n =? 95)%N then false
  else (n <=? 127)%N.

(** [unicode.ToTitle] for an ASCII character. *)
Definition ToTitle (c : ascii) : ascii :=
  let n := N_of_ascii c in
  if ((97 <=? n) && (n <=? 122))%N then ascii_of_N (n - 32) else c.

Fixpoint title_from (prev : ascii) (s : string) : string :=
  match s with
  | EmptyString => EmptyString
  | String c s' =>
      String (if isSeparator prev then ToTitle c else c) (title_from c s')
  end.

(** [strings.Title(s)] on ASCII text: the letter that follows a separator, or
    starts the string, is mapped to title case.  Go decodes runes and consults
    the Unicode tables for letters outside ASCII; this model keeps such bytes
    as they are and is exact on strings of ASCII characters only, which is
    what the statements about names assume. *)
Definition Title (s : string) : string := title_from " "%char s.

(** *** package path/filepath (Unix separator) *)

(** The loop of [filepath.Ext]: [r] holds [path[0..i]] reversed and [acc] is
    [path[i+1:]]. *)
Fixpoint ext_scan (r acc : string) : string :=
  match r with
  | EmptyString => EmptyString
  | String c r' =>
      if (c =? "/")%char then EmptyString
      else if (c =? ".")%char then String c acc
      else ext_scan r' (String c acc)
  end.

(** [filepath.Ext(path)]: the suffix starting at the last dot of the last
    path element, empty when there is none. *)
Definition Ext (path : string) : string := ext_scan (rev path) EmptyString.

Fixpoint strip_slashes (r : string) : string :=
  match r with
  | String c r' => if (c =? "/")%char then strip_slashes r' else r
  | EmptyString => EmptyString
  end.

Fixpoint last_element (r acc : string) : string :=
  match r with
  | EmptyString => acc
  | String c r' => if (c =? "/")%char then acc else last_element r' (String c acc)
  end.

(** [filepath.Base(path)]. *)
Definition Base (path : string) : string :=
  if (path =? "")%string then "."
  else
    let e := last_element (strip_slashes (rev path)) EmptyString in
    if (e =? "")%string then "/" else e.

(** *** package bufio: a Scanner with the default split function ScanLines *)

(** [bufio.MaxScanTokenSize]: the size the scanner's buffer may grow to. *)
Definition MaxScanTokenSize : N := 65536.

(** The input cut at every line feed; the piece after the last line feed
    comes last and may be empty. *)
Fixpoint segments (s : string) : list string :=
  match s with
  | EmptyString => [EmptyString]
  | String c s' =>
      if (c =? LF)%char then EmptyString :: segments s'
      else match segments s' with
           | seg :: rest => String c seg :: rest
           | [] => [str c]
           end
  end.

(** [dropCR]: one trailing carriage return is removed. *)
Definition dropCR (seg : string) : string :=
  match rev seg with
  | String c r => if (c =? CR)%char then rev r else seg
  | EmptyString => seg
  end.

(** The tokens [ScanLines] delivers: every terminated line, and the final
    unterminated one unless it is empty. *)
Fixpoint tokens (segs : list string) : list string :=
  match segs with
  | [] => []
  | [last] => if (last =? "")%string then [] else [dropCR last]
  | seg :: rest => dropCR seg :: tokens rest
  end.

Definition length_N (s : string) : N := N.of_nat (String.length s).

(** A line does not fit the buffer when it has [MaxScanTokenSize] bytes or
    more before its line feed: the scanner then stops with [ErrTooLong]. *)
Definition too_long (seg : string) : bool := (MaxScanTokenSize <=? length_N seg)%N.

(** The lines [scanner.Scan]/[scanner.Text] deliver for the whole input. *)
Definition ScanLines (value : string) : list string := tokens (segments value).

(** [scanner.Err()] once scanning has stopped: [true] for [ErrTooLong]. *)
Definition ScanErr (value : string) : bool := existsb too_long (segments value).

Definition ErrTooLong : string := "bufio.Scanner: token too long".

End Go.

Module Mdtogo.
Import Go.

(** ** The program: cmd/mdtogo/main.go *)

(** [type doc struct]. *)
Record doc : Type := Doc {
  Name : string;
  Short : string;
  Long : string;
  Examples : string
}.

(** The replacement [parse] writes for a backtick: it closes the raw string,
    adds a quoted backtick and opens the raw string again. *)
Definition backtick_escape : string :=
  str BACKTICK ++ " + " ++ str DQUOTE ++ str BACKTICK ++ str DQUOTE ++ " + "
  ++ str BACKTICK.

Definition fence : string := "```".

(** The local variables of [parse] that its loop updates. *)
Record vars : Type := Vars {
  short : string;
  isLong : bool;
  isExample : bool;
  isIndent : bool;
  long : list string;
  examples : list string
}.

Definition init : vars :=
  {| short := ""; isLong := false; isExample := false; isIndent := false;
     long := []; examples := [] |}.

Definition set_short (v : vars) (s : string) : vars :=
  {| short := s; isLong := isLong v; isExample := isExample v;
     isIndent := isIndent v; long := long v; examples := examples v |}.

Definition set_mode (v : vars) (l e : bool) : vars :=
  {| short := short v; isLong := l; isExample := e;
     isIndent := isIndent v; long := long v; examples := examples v |}.

Definition toggle_indent (v : vars) : vars :=
  {| short := short v; isLong := isLong v; isExample := isExample v;
     isIndent := negb (isIndent v); long := long v; examples := examples v |}.

Definition append_long (v : vars) (line : string) : vars :=
  {| short := short v; isLong := isLong v; isExample := isExample v;
     isIndent := isIndent v; long := long v ++ [line]; examples := examples v |}.

Definition append_examples (v : vars) (line : string) : vars :=
  {| short := short v; isLong := isLong v; isExample := isExample v;
     isIndent := isIndent v; long := long v; examples := examples v ++ [line] |}.

(** The text a line is stored as (main.go:176-179): backticks escaped, one tab
    in front inside a code block. *)
Definition stored (indent : bool) (line : string) : string :=
  let line := ReplaceAll line (str BACKTICK) backtick_escape in
  if indent then str TAB ++ line else line.

(** The body of the loop for a line that does not start the capture of the
    short description (main.go:152-187). *)
Definition step (full : bool) (v : vars) (line : string) : vars :=
  if negb full && HasPrefix line "### Synopsis" then set_mode v true false
  else if negb full && HasPrefix line "### Examples" then set_mode v false true
  else if negb full && HasPrefix line "### " then set_mode v false false
  else if HasPrefix line fence then toggle_indent v
  else
    let line := stored (isIndent v) line in
    if isLong v || full then append_long v line
    else if isExample v then append_examples v line
    else v.

(** The loop [for scanner.Scan()] of [parse] (main.go:138-188) over the lines
    the scanner still has to deliver.  The inner loop (main.go:142-148) reads
    on from the same scanner; when it ends without a non-blank line the
    scanner is exhausted and the outer loop ends too. *)
Fixpoint scan (full : bool) (v : vars) (lines : list string) : vars :=
  match lines with
  | [] => v
  | line :: rest =>
      if HasPrefix line "## " && (short v =? "")%string then
        (fix inner (rs : list string) : vars :=
           match rs with
           | [] => v
           | text :: rs' =>
               if (TrimSpace text =? "")%string then inner rs'
               else scan full (set_short v text) rs'
           end) rest
      else scan full (step full v line) rest
  end.

(** The name of the variables of a document (main.go:127-129). *)
Definition name_of (name : string) : string :=
  let name := ReplaceAll name (Ext name) "" in
  let name := Title name in
  ReplaceAll name "-" "".

(** [func parse(name, value string) doc], with the global [full] as an
    argument.  [Err] is the [log.Fatal] of main.go:196. *)
Definition parse (full : bool) (name value : string) : result doc :=
  let v := scan full init (ScanLines value) in
  if ScanErr value then Err ErrTooLong
  else Ok {| Name := name_of name;
             Short := short v;
             Long := Join (long v) (str LF);
             Examples := Join (examples v) (str LF) |}.

(** The declarations [doc.String] collects in [parts]. *)
Definition decl (name suffix text : string) : string :=
  "var " ++ name ++ suffix ++ "=" ++ str BACKTICK ++ text ++ str BACKTICK.

Definition parts (d : doc) : list string :=
  let parts := [] in
  let parts :=
    if negb (Short d =? "")%string then parts ++ [decl (Name d) "Short" (Short d)]
    else parts in
  let parts :=
    if negb (Long d =? "")%string then parts ++ [decl (Name d) "Long" (Long d)]
    else parts in
  let parts :=
    if negb (Examples d =? "")%string
    then parts ++ [decl (Name d) "Examples" (Examples d)]
    else parts in
  parts.

(** [func (d doc) String() string]. *)
Definition String_ (d : doc) : string := Join (parts d) (str LF) ++ str LF.

(** *** The process and its surroundings *)

(** The operating system as [main] sees it.  [ReadDir] gives the names of a
    directory's entries in listing order, [Stat] says whether a path exists,
    [WriteFile] answers [None] on success; an error carries its message.
    [PathJoin] is [filepath.Join] on two elements. *)
Record OS : Type := {
  ReadDir : string -> result (list string);
  ReadFile : string -> result string;
  Stat : string -> bool;
  WriteFile : string -> string -> option string;
  PathJoin : string -> string -> string
}.

(** The globals [full] and [licenseFile]. *)
Record flags : Type := Flags {
  full : bool;
  licenseFile : string
}.

(** One turn of the loop over [os.Args] (main.go:54-61). *)
Definition read_flag (f : flags) (a : string) : flags :=
  let f := if (a =? "--full=true")%string
           then {| full := true; licenseFile := licenseFile f |} else f in
  if HasPrefix a "--license="
  then {| full := full f; licenseFile := ReplaceAll a "--license=" "" |}
  else f.

Definition read_flags (args : list string) : flags :=
  fold_left read_flag args {| full := false; licenseFile := "" |}.

(** How the process ends: one constructor for each [os.Exit(1)] of [main], one
    for the [log.Fatal] of [parse], and [Written] for the normal return after
    [docs.go] has been written.  [mkdir] records whether [os.Mkdir] was
    called. *)
Inductive outcome : Type :=
| ExitUsage
| ExitReadDir (err : string)
| ExitReadFile (err : string)
| ExitScan (err : string)
| ExitLicense (err : string)
| ExitWrite (mkdir : bool) (path data err : string)
| Written (mkdir : bool) (path data : string).

Definition usage : string := "Usage: mdtogo SOURCE_MD_DIR/ DEST_GO_DIR/" ++ str LF.

(** The exit status of the process. *)
Definition status (o : outcome) : Z :=
  match o with
  | Written _ _ _ => 0%Z
  | _ => 1%Z
  end.

(** What the process has written to the error stream when it ends.
    [log.Fatal] puts the date and the time in front of its message; [now] is
    that prefix. *)
Definition stderr (now : string) (o : outcome) : string :=
  match o with
  | ExitUsage => usage
  | ExitReadDir e | ExitReadFile e | ExitLicense e | ExitWrite _ _ _ e =>
      e ++ str LF
  | ExitScan e => now ++ e ++ str LF
  | Written _ _ _ => ""
  end.

(** The loop over the directory entries (main.go:77-88); [inl] is an exit. *)
Fixpoint load (os : OS) (full : bool) (source : string) (files : list string)
  (docs : list doc) : outcome + list doc :=
  match files with
  | [] => inr docs
  | f :: rest =>
      if negb (Ext f =? ".md")%string then load os full source rest docs
      else
        match ReadFile os (PathJoin os source f) with
        | Err e => inl (ExitReadFile e)
        | Ok b =>
            match parse full f b with
            | Err e => inl (ExitScan e)
            | Ok d => load os full source rest (docs ++ [d])
            end
        end
  end.

Definition default_license : string :=
  "// Copyright 2019 The Kubernetes Authors." ++ str LF
  ++ "// SPDX-License-Identifier: Apache-2.0".

(** The license header (main.go:90-104). *)
Definition license (os : OS) (licenseFile : string) : result string :=
  if (licenseFile =? "")%string then Ok default_license
  else if (licenseFile =? "none")%string then Ok ""
  else ReadFile os licenseFile.

(** The generated-code marker and the package clause (main.go:106-108). *)
Definition marker : string :=
  "// Code generated by " ++ str DQUOTE ++ "mdtogo" ++ str DQUOTE ++ "; DO NOT EDIT.".

Definition preamble (dest : string) : string :=
  str LF ++ marker ++ str LF ++ "package " ++ Base dest ++ str LF.

(** The text of docs.go (main.go:106-118). *)
Definition render (license dest : string) (docs : list doc) : string :=
  let out := [license; preamble dest] in
  let out := out ++ map String_ docs in
  Join out (str LF).

(** [main] once the argument count has been checked (main.go:67-123). *)
Definition run (os : OS) (fl : flags) (source dest : string) : outcome :=
  match ReadDir os source with
  | Err e => ExitReadDir e
  | Ok files =>
      match load os (full fl) source files [] with
      | inl exit => exit
      | inr docs =>
          match license os (licenseFile fl) with
          | Err e => ExitLicense e
          | Ok lic =>
              let mkdir := negb (Stat os dest) in
              let o := render lic dest docs in
              let path := PathJoin os dest "docs.go" in
              match WriteFile os path o with
              | Some e => ExitWrite mkdir path o e
              | None => Written mkdir path o
              end
          end
      end
  end.

(** [func main()] on the argument vector [os.Args]. *)
Definition main (os : OS) (args : list string) : outcome :=
  let fl := read_flags args in
  if Nat.ltb (List.length args) 3 then ExitUsage
  else run os fl (nth 1 args "") (nth 2 args "").

End Mdtogo.

(** ** Definitions the statements are written with *)

Module Reading.
Import Go Mdtogo.

(** *** The parser seen as three passes *)

(** The inner loop of [parse] on its own: the first line that is not blank,
    and the lines left after it. *)
Fixpoint first_text (rs : list string) : option (string * list string) :=
  match rs with
  | [] => None
  | text :: rs' =>
      if (TrimSpace text =? "")%string then first_text rs' else Some (text, rs')
  end.

(** The text captured as short description of a document. *)
Fixpoint captured (lines : list string) : string :=
  match lines with
  | [] => ""
  | line :: rest =>
      if HasPrefix line "## "
      then match first_text rest with
           | Some (text, _) => text
           | None => ""
           end
      else captured rest
  end.

(** The lines left when the capture is taken out: the first line starting
    with [## ], the blank lines after it and the captured line are removed. *)
Fixpoint body (lines : list string) : list string :=
  match lines with
  | [] => []
  | line :: rest =>
      if HasPrefix line "## "
      then match first_text rest with
           | Some (_, rs) => rs
           | None => []
           end
      else line :: body rest
  end.

(** The code-fence pass: a line starting with three backticks flips [inside]
    and disappears; any other line is paired with the text it is stored as. *)
Fixpoint fences (inside : bool) (lines : list string) : list (string * string) :=
  match lines with
  | [] => []
  | line :: rest =>
      if HasPrefix line fence then fences (negb inside) rest
      else (line, stored inside line) :: fences inside rest
  end.

(** The section pass over the lines the fence pass kept: the texts collected
    for [Long] and for [Examples]. *)
Fixpoint sections (full l e : bool) (items : list (string * string))
  : list string * list string :=
  match items with
  | [] => ([], [])
  | (line, text) :: rest =>
      if negb full && HasPrefix line "### Synopsis" then sections full true false rest
      else if negb full && HasPrefix line "### Examples" then sections full false true rest
      else if negb full && HasPrefix line "### " then sections full false false rest
      else
        let (lo, ex) := sections full l e rest in
        if l || full then (text :: lo, ex)
        else if e then (lo, text :: ex)
        else (lo, ex)
  end.

(** *** The value of a generated declaration *)

(** Where the reader of a Go expression made of string literals joined by
    [ + ] stands: before an operand, inside a raw or a quoted literal, or
    after a literal with [n] characters of the operator still to come. *)
Inductive lex : Type :=
| Operand
| Raw
| Quoted
| Operator (n : nat).

(** The string a Go expression of raw literals and plain quoted literals
    (no escape sequences) denotes; [None] when the text is not such an
    expression.  Carriage returns inside a raw literal are discarded, as the
    language prescribes. *)
Fixpoint value_from (st : lex) (e : string) : option string :=
  match e with
  | EmptyString =>
      match st with
      | Operator 3 => Some EmptyString
      | _ => None
      end
  | String c e' =>
      match st with
      | Operand =>
          if (c =? BACKTICK)%char then value_from Raw e'
          else if (c =? DQUOTE)%char then value_from Quoted e'
          else None
      | Raw =>
          if (c =? BACKTICK)%char then value_from (Operator 3) e'
          else if (c =? CR)%char then value_from Raw e'
          else option_map (String c) (value_from Raw e')
      | Quoted =>
          if (c =? DQUOTE)%char then value_from (Operator 3) e'
          else if (c =? "\")%char || (c =? LF)%char then None
          else option_map (String c) (value_from Quoted e')
      | Operator 3 => if (c =? " ")%char then value_from (Operator 2) e' else None
      | Operator 2 => if (c =? "+")%char then value_from (Operator 1) e' else None
      | Operator 1 => if (c =? " ")%char then value_from Operand e' else None
      | Operator _ => None
      end
  end.

(** [go_value] reads the literals of an expression; it does not ask whether
    the bytes are text the compiler accepts, which [go_text] decides and
    [source_value] requires. *)
Definition go_value (e : string) : option string := value_from Operand e.

(** The initializer [doc.String] writes for a field. *)
Definition initializer (text : string) : string :=
  str BACKTICK ++ text ++ str BACKTICK.

(** A string without its carriage returns. *)
Fixpoint without_cr (s : string) : string :=
  match s with
  | EmptyString => EmptyString
  | String c s' => if (c =? CR)%char then without_cr s' else String c (without_cr s')
  end.

(** The escaping of [parse], character by character. *)
Fixpoint escape (s : string) : string :=
  match s with
  | EmptyString => EmptyString
  | String c s' =>
      if (c =? BACKTICK)%char then backtick_escape ++ escape s'
      else String c (escape s')
  end.

(** The text a stored line stands for: the line, after a tab inside a code
    block. *)
Definition shown (p : bool * string) : string :=
  if fst p then str TAB ++ snd p else snd p.

(** The lines the fence pass keeps, each with the state of the code-block
    flag when it is read. *)
Fixpoint kept (inside : bool) (lines : list string) : list (bool * string) :=
  match lines with
  | [] => []
  | line :: rest =>
      if HasPrefix line fence then kept (negb inside) rest
      else (inside, line) :: kept inside rest
  end.

(** *** Go source text *)

(** Where a reader of UTF-8 stands: between runes, before [n] continuation
    bytes, after a first byte that narrows the range of the second one, or
    inside what may become the byte order mark EF BB BF. *)
Inductive utf8 : Type :=
| Between
| Tail (n : nat)
| AfterE0
| AfterED
| AfterEF
| AfterEFBB
| AfterF0
| AfterF4.

Definition in_range (lo : N) (c : ascii) (hi : N) : bool :=
  ((lo <=? N_of_ascii c) && (N_of_ascii c <=? hi))%N.

(** One byte of Go source text: the text has to be valid UTF-8 (the ranges
    are those of [rune_width]), and the compiler refuses the NUL character
    and a byte order mark that is not the start of the file. *)
Definition utf8_step (st : utf8) (c : ascii) : option utf8 :=
  match st with
  | Between =>
      if (N_of_ascii c =? 0)%N then None
      else if (N_of_ascii c <? 128)%N then Some Between
      else if in_range 194 c 223 then Some (Tail 1)
      else if (N_of_ascii c =? 224)%N then Some AfterE0
      else if (N_of_ascii c =? 237)%N then Some AfterED
      else if (N_of_ascii c =? 239)%N then Some AfterEF
      else if in_range 225 c 238 then Some (Tail 2)
      else if (N_of_ascii c =? 240)%N then Some AfterF0
      else if in_range 241 c 243 then Some (Tail 3)
      else if (N_of_ascii c =? 244)%N then Some AfterF4
      else None
  | Tail n =>
      if in_range 128 c 191
      then Some match n with
                | S (S k) => Tail (S k)
                | _ => Between
                end
      else None
  | AfterE0 => if in_range 160 c 191 then Some (Tail 1) else None
  | AfterED => if in_range 128 c 159 then Some (Tail 1) else None
  | AfterEF =>
      if (N_of_ascii c =? 187)%N then Some AfterEFBB
      else if in_range 128 c 191 then Some (Tail 1)
      else None
  | AfterEFBB =>
      if (N_of_ascii c =? 191)%N then None
      else if in_range 128 c 191 then Some Between
      else None
  | AfterF0 => if in_range 144 c 191 then Some (Tail 2) else None
  | AfterF4 => if in_range 128 c 143 then Some (Tail 2) else None
  end.

Fixpoint utf8_run (st : utf8) (s : string) : option utf8 :=
  match s with
  | EmptyString => Some st
  | String c s' =>
      match utf8_step st c with
      | Some st' => utf8_run st' s'
      | None => None
      end
  end.

(** A text the Go compiler reads: whole runes of valid UTF-8, no NUL, no byte
    order mark. *)
Definition go_text (s : string) : bool :=
  match utf8_run Between s with
  | Some Between => true
  | _ => false
  end.

(** The value of an initializer in docs.go: the text has to be Go source
    text, and then it is read as [go_value] reads it. *)
Definition source_value (e : string) : option string :=
  if go_text e then go_value e else None.

(** *** Names *)

(** [strings.Contains(s, sub)]. *)
Fixpoint contains (s sub : string) : bool :=
  match s with
  | EmptyString => (sub =? "")%string
  | String _ s' => String.prefix sub s || contains s' sub
  end.

Fixpoint has_char (c : ascii) (s : string) : bool :=
  match s with
  | EmptyString => false
  | String a s' => (a =? c)%char || has_char c s'
  end.

Fixpoint remove_char (c : ascii) (s : string) : string :=
  match s with
  | EmptyString => EmptyString
  | String a s' => if (a =? c)%char then remove_char c s' else String a (remove_char c s')
  end.

(** Every character is an ASCII character. *)
Fixpoint ascii_only (s : string) : bool :=
  match s with
  | EmptyString => true
  | String a s' => (N_of_ascii a <? 128)%N && ascii_only s'
  end.

Definition word_char (c : ascii) : bool :=
  let n := N_of_ascii c in
  ((48 <=? n) && (n <=? 57) || (65 <=? n) && (n <=? 90)
   || (97 <=? n) && (n <=? 122) || (n =? 95))%N.

Definition upper (c : ascii) : ascii :=
  let n := N_of_ascii c in
  if ((97 <=? n) && (n <=? 122))%N then ascii_of_N (n - 32) else c.

(** Words are the maximal runs of letters, digits and underscores; the first
    character of every word is put in upper case.  [start] says whether the
    next character starts a word. *)
Fixpoint capitalize (start : bool) (s : string) : string :=
  match s with
  | EmptyString => EmptyString
  | String c s' =>
      String (if start then upper c else c) (capitalize (negb (word_char c)) s')
  end.

(** *** The wording of the specification, for comparison *)

Definition is_blank_char (c : ascii) : bool :=
  match N_of_ascii c with
  | 9%N | 10%N | 11%N | 12%N | 13%N | 32%N => true
  | _ => false
  end.

(** Title case as the specification words it: the first letter of each
    white-space-separated word is capitalized. *)
Fixpoint spec_title (start : bool) (s : string) : string :=
  match s with
  | EmptyString => EmptyString
  | String c s' =>
      String (if start then upper c else c) (spec_title (is_blank_char c) s')
  end.

(** [s] without its last [n] characters. *)
Definition drop_last (n : nat) (s : string) : string :=
  String.substring 0 (String.length s - n) s.

(** The name as the specification words it: extension stripped, title case
    over white-space-separated words, hyphens removed. *)
Definition spec_name (name : string) : string :=
  remove_char "-" (spec_title true (drop_last (String.length (Ext name)) name)).

(** The positional arguments as the specification words them: the arguments
    after the program name that do not look like flags. *)
Definition positionals (args : list string) : list string :=
  filter (fun a => negb (HasPrefix a "--")) (tl args).

(** [Long] in full mode as the specification words it: every line that the
    capture of the short description did not consume, joined by line feeds. *)
Definition spec_full_long (lines : list string) : string :=
  Join (body lines) (str LF).

(** *** Documents and surroundings used as examples *)

Definition text_of (lines : list string) : string := Join lines (str LF).

Definition edit_md : string :=
  text_of ["## edit"; ""; "Edit a resource."; ""; "### Synopsis"; "";
           "Edit the named resource in place."; ""; "### Examples"; "";
           "kubectl edit pod/foo"].

Definition fenced_md : string :=
  text_of ["## run"; "Run it."; fence; "make run"; fence].

Definition fence_first_md : string :=
  text_of ["## x"; fence; "y"].

Definition backtick_md : string :=
  text_of ["## get"; "Use `get`."].

(** A machine where [dir] lists [files], every file of the map [content] can
    be read, the destination exists and writing succeeds. *)
Definition machine (files : list string) (content : string -> result string) : OS :=
  {| ReadDir := fun _ => Ok files;
     ReadFile := content;
     Stat := fun _ => true;
     WriteFile := fun _ _ => None;
     PathJoin := fun a b => (a ++ "/" ++ b)%string |}.

Definition no_file : string -> result string :=
  fun _ => Err "no such file or directory".

(** The entries [main] reads (main.go:78). *)
Definition is_md (f : string) : bool := (Ext f =? ".md")%string.

(** A machine on which no directory can be listed; the error names the
    directory that was asked for. *)
Definition unlistable : OS :=
  {| ReadDir := fun dir => Err dir;
     ReadFile := no_file;
     Stat := fun _ => true;
     WriteFile := fun _ _ => None;
     PathJoin := fun a b => (a ++ "/" ++ b)%string |}.

(** *** Rendering *)

(** The three fields of a document with the suffixes of their variables. *)
Definition fields (d : doc) : list (string * string) :=
  [("Short", Short d); ("Long", Long d); ("Examples", Examples d)].

Definition filled (p : string * string) : bool := negb (snd p =? "")%string.

(** The line a field gets in the block of its document: its declaration and
    a line feed when it holds text, nothing when it is empty. *)
Definition declared (name suffix text : string) : string :=
  if (text =? "")%string then "" else decl name suffix text ++ str LF.

(** What the documents add to docs.go after the package clause: a line feed
    (the separator of the join) and its block for each. *)
Fixpoint blocks (docs : list doc) : string :=
  match docs with
  | [] => ""
  | d :: rest => str LF ++ String_ d ++ blocks rest
  end.

(** *** Flags *)

(** An argument that does not set the license file. *)
Definition no_license_flag (a : string) : Prop :=
  HasPrefix a "--license=" = false.

(** *** Line endings *)

(** A text with every line feed turned into carriage return, line feed. *)
Fixpoint to_crlf (s : string) : string :=
  match s with
  | EmptyString => EmptyString
  | String c s' =>
      if (c =? LF)%char then String CR (String LF (to_crlf s'))
      else String c (to_crlf s')
  end.

(** A carriage return added to every piece but the last. *)
Fixpoint add_cr (segs : list string) : list string :=
  match segs with
  | [] => []
  | [last] => [last]
  | seg :: rest => (seg ++ str CR)%string :: add_cr rest
  end.

(** *** Lines by their characters *)

Definition no_backtick (line : string) : Prop := has_char BACKTICK line = false.

(** Neither of the two headings that open a section. *)
Definition no_section (line : string) : Prop :=
  HasPrefix line "### Synopsis" = false /\ HasPrefix line "### Examples" = false.

(** A byte that a white-space rune may hold: an ASCII space character, or a
    byte of a sequence of several bytes. *)
Definition spacey (c : ascii) : bool :=
  is_blank_char c || (128 <=? N_of_ascii c)%N.

(** The first [n] characters of [s] are there and are [spacey]. *)
Fixpoint lead_spacey (n : nat) (s : string) : Prop :=
  match n with
  | O => True
  | S k =>
      match s with
      | EmptyString => False
      | String c s' => spacey c = true /\ lead_spacey k s'
      end
  end.

(** Only ASCII space characters. *)
Fixpoint only_blank_chars (s : string) : bool :=
  match s with
  | EmptyString => true
  | String c s' => is_blank_char c && only_blank_chars s'
  end.

Fixpoint only_slashes (s : string) : bool :=
  match s with
  | EmptyString => true
  | String c s' => (c =? "/")%char && only_slashes s'
  end.

(** *** The section pass on the lines themselves *)

(** The lines collected for [Long] and for [Examples], each with the state of
    the code-block flag when it was read. *)
Fixpoint chosen (full l e : bool) (items : list (bool * string))
  : list (bool * string) * list (bool * string) :=
  match items with
  | [] => ([], [])
  | p :: rest =>
      if negb full && HasPrefix (snd p) "### Synopsis" then chosen full true false rest
      else if negb full && HasPrefix (snd p) "### Examples" then chosen full false true rest
      else if negb full && HasPrefix (snd p) "### " then chosen full false false rest
      else
        let (lo, ex) := chosen full l e rest in
        if l || full then (p :: lo, ex)
        else if e then (lo, p :: ex)
        else (lo, ex)
  end.

(** The document a file has to yield for [main] to go on: the file can be
    read and scanned. *)
Definition loads (os : OS) (full : bool) (source f : string) (d : doc) : Prop :=
  exists b, ReadFile os (PathJoin os source f) = Ok b /\ parse full f b = Ok d.

End Reading.

Import Go Mdtogo Reading.

#[local] Arguments HasPrefix : simpl never.
#[local] Arguments stored : simpl never.
#[local] Arguments TrimSpace : simpl never.
#[local] Arguments String.eqb : simpl never.

(** * Properties *)

(** ** Strings *)

Lemma eqb_empty_false (s : string) : s <> "" -> (s =? "")%string = false.
Proof. intros H. apply String.eqb_neq. exact H. Qed.

Lemma append_empty_r (s : string) : (s ++ "")%string = s.
Proof. induction s as [|c s IH]; simpl; [reflexivity | now rewrite IH]. Qed.

Lemma append_assoc (a b c : string) : ((a ++ b) ++ c = a ++ (b ++ c))%string.
Proof. induction a as [|x a IH]; simpl; [reflexivity | now rewrite IH]. Qed.

(** Two prefixes of one string start with the same character. *)
Lemma prefix_head (a b : ascii) (p q s : string) :
  String.prefix (String a p) s = true ->
  String.prefix (String b q) s = true -> a = b.
Proof.
  destruct s as [|c s]; simpl; [discriminate|].
  destruct (ascii_dec a c) as [->|]; [|discriminate].
  destruct (ascii_dec b c) as [->|]; [reflexivity|discriminate].
Qed.

Lemma heading_not_fence (line h : string) :
  HasPrefix line (String "#" h) = true -> HasPrefix line fence = false.
Proof.
  intros H. destruct (HasPrefix line fence) eqn:E; [|reflexivity].
  pose proof (prefix_head _ _ _ _ _ H E) as X. discriminate X.
Qed.

(** ** The loop of [parse] *)

Section Scan.

Variable full : bool.

Lemma scan_step (v : vars) (line : string) (rest : list string) :
  HasPrefix line "## " && (short v =? "")%string = false ->
  scan full v (line :: rest) = scan full (step full v line) rest.
Proof. intros H. simpl. rewrite H. reflexivity. Qed.

Lemma scan_capture (v : vars) (line : string) (rest : list string) :
  HasPrefix line "## " = true -> short v = "" ->
  scan full v (line :: rest) =
  match first_text rest with
  | Some (text, rs) => scan full (set_short v text) rs
  | None => v
  end.
Proof.
  intros H E. simpl. rewrite H, E. simpl.
  induction rest as [|text rs IH]; simpl; [reflexivity|].
  destruct (TrimSpace text =? "")%string; [exact IH | reflexivity].
Qed.

Lemma first_text_not_blank (rs rs' : list string) (text : string) :
  first_text rs = Some (text, rs') -> TrimSpace text <> "".
Proof.
  induction rs as [|t rs IH]; simpl; [discriminate|].
  destruct (TrimSpace t =? "")%string eqn:E; [exact IH|].
  intros [= <- <-]. apply String.eqb_neq. exact E.
Qed.

Lemma first_text_not_empty (rs rs' : list string) (text : string) :
  first_text rs = Some (text, rs') -> text <> "".
Proof.
  intros H E. apply first_text_not_blank in H. subst text. now apply H.
Qed.

(** Blank lines, then a line with text: the capture stops at that line. *)
Lemma first_text_skips (blanks rest : list string) (text : string) :
  Forall (fun b => TrimSpace b = "") blanks -> TrimSpace text <> "" ->
  first_text (blanks ++ text :: rest) = Some (text, rest).
Proof.
  intros Hb Ht. induction Hb as [|b bs Hb _ IH]; simpl.
  - now rewrite (eqb_empty_false _ Ht).
  - rewrite Hb. exact IH.
Qed.

Lemma short_step (v : vars) (line : string) : short (step full v line) = short v.
Proof.
  unfold step.
  repeat match goal with |- context [if ?c then _ else _] => destruct c end;
    reflexivity.
Qed.

(** One line of the loop against one line of the fence and section passes. *)
Lemma step_passes (v : vars) (line : string) (rest : list string) :
  let v' := step full v line in
  let p := sections full (isLong v) (isExample v)
             (fences (isIndent v) (line :: rest)) in
  let p' := sections full (isLong v') (isExample v')
              (fences (isIndent v') rest) in
  long v ++ fst p = long v' ++ fst p' /\
  examples v ++ snd p = examples v' ++ snd p'.
Proof.
  unfold step. cbn zeta.
  destruct (negb full && HasPrefix line "### Synopsis") eqn:E1.
  { pose proof E1 as E1'. apply andb_prop in E1' as [_ H].
    simpl fences. rewrite (heading_not_fence _ _ H). simpl sections.
    rewrite E1. simpl. split; reflexivity. }
  destruct (negb full && HasPrefix line "### Examples") eqn:E2.
  { pose proof E2 as E2'. apply andb_prop in E2' as [_ H].
    simpl fences. rewrite (heading_not_fence _ _ H). simpl sections.
    rewrite E1, E2. simpl. split; reflexivity. }
  destruct (negb full && HasPrefix line "### ") eqn:E3.
  { pose proof E3 as E3'. apply andb_prop in E3' as [_ H].
    simpl fences. rewrite (heading_not_fence _ _ H). simpl sections.
    rewrite E1, E2, E3. simpl. split; reflexivity. }
  simpl fences.
  destruct (HasPrefix line fence) eqn:E4.
  { simpl. split; reflexivity. }
  simpl sections. rewrite E1, E2, E3.
  destruct (isLong v || full) eqn:E5; [|destruct (isExample v) eqn:E6]; simpl;
    try rewrite E6;
    destruct (sections full (isLong v) _ (fences (isIndent v) rest))
      as [lo ex]; simpl;
    rewrite <- ?app_assoc; simpl; split; reflexivity.
Qed.

(** Once the short description is set, the loop is the two passes. *)
Lemma scan_after_capture (lines : list string) :
  forall v : vars, short v <> "" ->
  let p := sections full (isLong v) (isExample v) (fences (isIndent v) lines) in
  short (scan full v lines) = short v /\
  long (scan full v lines) = long v ++ fst p /\
  examples (scan full v lines) = examples v ++ snd p.
Proof.
  induction lines as [|line rest IH]; intros v Hs; cbn zeta.
  - simpl. rewrite !app_nil_r. repeat split.
  - rewrite scan_step
      by (rewrite (eqb_empty_false _ Hs); apply Bool.andb_false_r).
    destruct (step_passes v line rest) as [Hl He]. cbn zeta in Hl, He.
    rewrite Hl, He.
    destruct (IH (step full v line)) as (IH1 & IH2 & IH3).
    { now rewrite short_step. }
    rewrite IH1, IH2, IH3, short_step. repeat split.
Qed.

(** From the start of a document: the capture, then the two passes over the
    lines the capture left. *)
Lemma scan_passes (lines : list string) :
  forall v : vars, short v = "" ->
  let p := sections full (isLong v) (isExample v)
             (fences (isIndent v) (body lines)) in
  short (scan full v lines) = captured lines /\
  long (scan full v lines) = long v ++ fst p /\
  examples (scan full v lines) = examples v ++ snd p.
Proof.
  induction lines as [|line rest IH]; intros v Hs; cbn zeta.
  - simpl. rewrite !app_nil_r. repeat split. exact Hs.
  - destruct (HasPrefix line "## ") eqn:Hh.
    + rewrite (scan_capture v line rest Hh Hs). simpl captured. simpl body.
      rewrite Hh.
      destruct (first_text rest) as [[text rs]|] eqn:Hf.
      * destruct (scan_after_capture rs (set_short v text)) as (H1 & H2 & H3).
        { simpl. exact (first_text_not_empty _ _ _ Hf). }
        rewrite H1, H2, H3. simpl. repeat split.
      * simpl. rewrite !app_nil_r. repeat split. exact Hs.
    + rewrite scan_step by (rewrite Hh; reflexivity).
      simpl captured. simpl body. rewrite Hh.
      destruct (step_passes v line (body rest)) as [Hl He]. cbn zeta in Hl, He.
      rewrite Hl, He.
      destruct (IH (step full v line)) as (IH1 & IH2 & IH3).
      { now rewrite short_step. }
      rewrite IH1, IH2, IH3. repeat split.
Qed.

End Scan.

(** ** [parse] *)

Lemma parse_scan_error (full : bool) (name value : string) :
  ScanErr value = true -> parse full name value = Err ErrTooLong.
Proof. intros H. unfold parse. rewrite H. reflexivity. Qed.

(** [parse] returns a document exactly when the scanner meets no line that is
    too long, and the document is then given by the three passes. *)
Lemma parse_passes (full : bool) (name value : string) :
  ScanErr value = false ->
  let p := sections full false false (fences false (body (ScanLines value))) in
  parse full name value =
  Ok {| Name := name_of name;
        Short := captured (ScanLines value);
        Long := Join (fst p) (str LF);
        Examples := Join (snd p) (str LF) |}.
Proof.
  intros H. cbn zeta. unfold parse. rewrite H.
  destruct (scan_passes full (ScanLines value) init eq_refl) as (H1 & H2 & H3).
  rewrite H1, H2, H3. reflexivity.
Qed.

(** Lines that do not start the capture are handled one after the other. *)
Lemma scan_app_plain (full : bool) (pre tail : list string) :
  Forall (fun l => HasPrefix l "## " = false) pre ->
  forall v, scan full v (pre ++ tail) = scan full (scan full v pre) tail.
Proof.
  induction 1 as [|l pre Hl _ IH]; intros v; [reflexivity|].
  rewrite <- app_comm_cons.
  rewrite !scan_step by (rewrite Hl; reflexivity).
  apply IH.
Qed.

Lemma short_scan_plain (full : bool) (pre : list string) :
  Forall (fun l => HasPrefix l "## " = false) pre ->
  forall v, short (scan full v pre) = short v.
Proof.
  induction 1 as [|l pre Hl _ IH]; intros v; [reflexivity|].
  rewrite scan_step by (rewrite Hl; reflexivity).
  rewrite IH. apply short_step.
Qed.

(** ** The worked example of the specification *)

(** C1, as stated, fails: on the document [## edit / Edit a resource. /
    ### Synopsis / Edit the named resource in place. / ### Examples /
    kubectl edit pod/foo] (blank lines in between) the default mode yields the
    claimed [Short], but [Long] and [Examples] are not the bare sentences the
    claim gives: the blank lines of the two sections are collected too. *)
Lemma edit_md_sections_keep_blank_lines :
  exists d : doc,
    parse false "edit.md" edit_md = Ok d /\
    Short d = "Edit a resource." /\
    Long d <> "Edit the named resource in place." /\
    Examples d <> "kubectl edit pod/foo".
Proof.
  eexists. split; [vm_compute; reflexivity|].
  cbn [Short Long Examples]. repeat split; discriminate.
Qed.

(** C1, amended: in default mode the document of the example is parsed, under
    any file name and with or without a final line feed, into
    [Short = "Edit a resource."], [Long] = the sentence of the synopsis
    between two line feeds and [Examples] = a line feed followed by the
    example; [Short] is the first non-blank line that the forward scan finds
    after the first line starting with [## ]. *)
Theorem edit_md_default_mode (name : string) :
  let d := {| Name := name_of name;
              Short := "Edit a resource.";
              Long := str LF ++ "Edit the named resource in place." ++ str LF;
              Examples := str LF ++ "kubectl edit pod/foo" |} in
  parse false name edit_md = Ok d /\
  parse false name (edit_md ++ str LF) = Ok d /\
  first_text (tl (ScanLines edit_md)) =
    Some ("Edit a resource.", tl (tl (tl (ScanLines edit_md)))).
Proof.
  cbn zeta. split; [|split].
  - rewrite parse_passes by (vm_compute; reflexivity). cbn zeta.
    repeat f_equal; vm_compute; reflexivity.
  - rewrite parse_passes by (vm_compute; reflexivity). cbn zeta.
    repeat f_equal; vm_compute; reflexivity.
  - vm_compute. reflexivity.
Qed.

(** ** The short description *)

(** C9: the line captured as [Short] is the scanner's line itself, whatever it
    starts with.  When a document reads [pre], a first line starting with
    [## ], blank lines, a line [text] that is not blank, and [rest], then
    [Short] is [text] unchanged (no escaping, no tab), and the loop goes on
    over [rest] from the variables it had before the heading with only
    [short] set: the line switched no section, flipped no code block and was
    appended to nothing, even when it starts with [### ] or three
    backticks. *)
Theorem short_taken_verbatim (full : bool) (name value : string)
  (pre blanks rest : list string) (heading text : string) :
  ScanErr value = false ->
  ScanLines value = pre ++ heading :: blanks ++ text :: rest ->
  Forall (fun l => HasPrefix l "## " = false) pre ->
  HasPrefix heading "## " = true ->
  Forall (fun b => TrimSpace b = "") blanks ->
  TrimSpace text <> "" ->
  let before := scan full init pre in
  let after := scan full (set_short before text) rest in
  exists d : doc,
    parse full name value = Ok d /\
    Short d = text /\
    scan full init (ScanLines value) = after /\
    Long d = Join (long after) (str LF) /\
    Examples d = Join (examples after) (str LF).
Proof.
  intros Herr Hlines Hpre Hhead Hblanks Htext. cbn zeta.
  assert (Hscan : scan full init (ScanLines value)
                  = scan full (set_short (scan full init pre) text) rest).
  { rewrite Hlines, (scan_app_plain full pre _ Hpre).
    rewrite (scan_capture full _ heading _ Hhead)
      by (now rewrite short_scan_plain).
    now rewrite (first_text_skips blanks rest text Hblanks Htext). }
  eexists. split; [unfold parse; rewrite Herr; reflexivity|].
  cbn [Short Long Examples]. rewrite Hscan.
  repeat split.
  destruct (scan_after_capture full rest (set_short (scan full init pre) text))
    as (H1 & _).
  - simpl. intros ->. now apply Htext.
  - rewrite H1. reflexivity.
Qed.

(** A line of three backticks right after the heading. *)
Lemma short_taken_verbatim_fence :
  exists d : doc,
    parse true "x.md" fence_first_md = Ok d /\
    Short d = fence /\
    scan true init (ScanLines fence_first_md)
      = scan true (set_short (scan true init []) fence) ["y"] /\
    Long d = Join (long (scan true (set_short (scan true init []) fence) ["y"])) (str LF) /\
    Examples d
      = Join (examples (scan true (set_short (scan true init []) fence) ["y"])) (str LF).
Proof.
  apply (short_taken_verbatim true "x.md" fence_first_md [] [] ["y"] "## x" fence).
  - vm_compute; reflexivity.
  - vm_compute; reflexivity.
  - constructor.
  - vm_compute; reflexivity.
  - constructor.
  - vm_compute; discriminate.
Defined.

(** ** Full mode *)

Lemma sections_full (l e : bool) (items : list (string * string)) :
  sections true l e items = (map snd items, []).
Proof.
  induction items as [|[line text] rest IH]; [reflexivity|].
  simpl. rewrite IH. rewrite Bool.orb_true_r. reflexivity.
Qed.

(** C2, as stated, fails: in full mode the document [## run / Run it. /
    ``` / make run / ```] gets [Long] = a tab and [make run]; the two fence
    lines are not in it, so [Long] is neither the join of every line the
    capture left nor the join of the lines from the short description on. *)
Lemma full_mode_drops_fence_lines :
  exists d : doc,
    parse true "run.md" fenced_md = Ok d /\
    Long d = (str TAB ++ "make run")%string /\
    Long d <> spec_full_long (ScanLines fenced_md) /\
    Long d <> Join (tl (ScanLines fenced_md)) (str LF).
Proof.
  eexists. split; [vm_compute; reflexivity|].
  cbn [Long]. split; [reflexivity|].
  split; vm_compute; discriminate.
Qed.

(** C2, amended: in full mode every document the scanner reads without error
    gets the [Short] of the default mode, an empty [Examples], and as [Long]
    the line-feed join of the lines that the capture of the short description
    did not consume and that do not start with three backticks, each stored
    with its backticks escaped and, inside a code block, a tab in front;
    section headings are among these lines, as text. *)
Theorem full_mode_document (name value : string) :
  ScanErr value = false ->
  exists d d' : doc,
    parse true name value = Ok d /\
    parse false name value = Ok d' /\
    Short d = Short d' /\
    Examples d = "" /\
    Long d = Join (map snd (fences false (body (ScanLines value)))) (str LF).
Proof.
  intros H.
  do 2 eexists. split; [apply (parse_passes true name value H)|].
  split; [apply (parse_passes false name value H)|].
  cbn [Short Long Examples]. rewrite sections_full. repeat split.
Qed.

(** The document with a code block, in full mode. *)
Lemma full_mode_document_fenced :
  ScanErr fenced_md = false /\
  exists d d' : doc,
    parse true "run.md" fenced_md = Ok d /\
    parse false "run.md" fenced_md = Ok d' /\
    Short d = Short d' /\
    Examples d = "" /\
    Long d = Join (map snd (fences false (body (ScanLines fenced_md)))) (str LF).
Proof.
  split; [vm_compute; reflexivity|].
  apply (full_mode_document "run.md" fenced_md). vm_compute; reflexivity.
Defined.

(** ** Reading the source directory *)

(** The documents [load] adds are the parses of the [.md] entries, each one
    the result of [parse] on that entry's name and content alone. *)
Lemma load_documents (os : OS) (full : bool) (source : string)
  (files : list string) :
  forall docs out : list doc,
    load os full source files docs = inr out ->
    exists added : list doc,
      out = docs ++ added /\
      Forall2 (fun f d => exists b, ReadFile os (PathJoin os source f) = Ok b /\
                                    parse full f b = Ok d)
              (filter is_md files) added.
Proof.
  induction files as [|f rest IH]; intros docs out; simpl.
  - intros [= <-]. exists []. rewrite app_nil_r. split; constructor.
  - unfold is_md at 1. destruct (Ext f =? ".md")%string eqn:E; simpl.
    + destruct (ReadFile os (PathJoin os source f)) as [b|e] eqn:Hb;
        [|discriminate].
      destruct (parse full f b) as [d|e] eqn:Hd; [|discriminate].
      intros H. destruct (IH _ _ H) as (added & -> & HF).
      exists (d :: added). rewrite <- app_assoc. split; [reflexivity|].
      constructor; [|exact HF]. exists b. split; assumption.
    + apply IH.
Qed.

Lemma load_not_usage (os : OS) (full : bool) (source : string)
  (files : list string) :
  forall docs, load os full source files docs <> inl ExitUsage.
Proof.
  induction files as [|f rest IH]; intros docs; simpl; [discriminate|].
  destruct (negb (Ext f =? ".md")%string); [apply IH|].
  destruct (ReadFile os (PathJoin os source f)); [|discriminate].
  destruct (parse full f a); [apply IH | discriminate].
Qed.

(** ** Code blocks *)

Lemma step_fence (full : bool) (v : vars) (line : string) :
  HasPrefix line fence = true -> step full v line = toggle_indent v.
Proof.
  intros H. unfold step.
  destruct (HasPrefix line "### Synopsis") eqn:E1;
    [rewrite (heading_not_fence _ _ E1) in H; discriminate|].
  destruct (HasPrefix line "### Examples") eqn:E2;
    [rewrite (heading_not_fence _ _ E2) in H; discriminate|].
  destruct (HasPrefix line "### ") eqn:E3;
    [rewrite (heading_not_fence _ _ E3) in H; discriminate|].
  rewrite !Bool.andb_false_r, H. reflexivity.
Qed.

(** C7, as stated, fails: in [## x / ``` / y] the line of three backticks is
    read by the capture of the short description.  It is kept (as [Short])
    instead of dropped, the code block is not entered, and the next line is
    stored without a tab. *)
Lemma fence_line_taken_as_short :
  exists d : doc,
    parse true "x.md" fence_first_md = Ok d /\
    In fence (ScanLines fence_first_md) /\
    HasPrefix fence fence = true /\
    Short d = fence /\
    Long d = "y" /\
    Long d <> (str TAB ++ "y")%string.
Proof.
  eexists. split; [vm_compute; reflexivity|].
  cbn [Short Long]. split; [vm_compute; tauto|].
  repeat split. discriminate.
Qed.

(** C7, amended: the lines of a document that the capture of the short
    description does not consume go through the fence pass started with the
    flag off: each of them that starts with three backticks flips the flag
    and is appended to no field, every other one is stored with exactly one
    tab in front while the flag is on and with none while it is off.  The
    flag belongs to one run of [parse]: every document that [main] loads is
    [parse] of its own name and content, so a fence left open in one file
    leaves the parse of the others as it is. *)
Theorem code_fences (os : OS) (full : bool) (name value : string) :
  ScanErr value = false ->
  (exists d : doc,
     parse full name value = Ok d /\
     let p := sections full false false (fences false (body (ScanLines value))) in
     Long d = Join (fst p) (str LF) /\ Examples d = Join (snd p) (str LF)) /\
  (forall v line, HasPrefix line fence = true ->
                  step full v line = toggle_indent v) /\
  (forall line, stored true line = (str TAB ++ stored false line)%string) /\
  (forall source files out,
     load os full source files [] = inr out ->
     Forall2 (fun f d => exists b, ReadFile os (PathJoin os source f) = Ok b /\
                                   parse full f b = Ok d)
             (filter is_md files) out).
Proof.
  intros H. split; [|split; [|split]].
  - eexists. split; [apply (parse_passes full name value H)|].
    cbn [Long Examples]. split; reflexivity.
  - intros v line. apply step_fence.
  - reflexivity.
  - intros source files out Hl.
    destruct (load_documents os full source files [] out Hl) as (added & -> & HF).
    exact HF.
Qed.

(** The command inside the code block is stored after one tab. *)
Lemma code_fences_fenced :
  ScanErr fenced_md = false /\
  exists d : doc,
    parse true "run.md" fenced_md = Ok d /\
    Long d = (str TAB ++ "make run")%string /\ Examples d = "".
Proof.
  split; [vm_compute; reflexivity|].
  destruct (code_fences (machine [] no_file) true "run.md" fenced_md)
    as [(d & Hd & Hl & He) _]; [vm_compute; reflexivity|].
  exists d. split; [exact Hd|]. split; [exact Hl | exact He].
Defined.

(** ** The arguments of the process *)

Lemma run_not_usage (os : OS) (fl : flags) (source dest : string) :
  run os fl source dest <> ExitUsage.
Proof.
  unfold run.
  destruct (ReadDir os source) as [files|e]; [|discriminate].
  destruct (load os (full fl) source files []) as [o|docs] eqn:Hl.
  - intros ->. exact (load_not_usage _ _ _ _ _ Hl).
  - destruct (license os (licenseFile fl)); [|discriminate].
    destruct (WriteFile os _ _); discriminate.
Qed.

(** C3, as stated, fails: a flag in second or third place is taken for a
    directory.  With [mdtogo src --full=true] there is one positional
    argument, yet the process does not stop with the usage message; with
    [mdtogo --full=true src dst] the positional arguments are [src] and [dst],
    yet the directory that is listed is [--full=true]. *)
Lemma flags_count_as_arguments :
  List.length (positionals ["mdtogo"; "src"; "--full=true"]) < 2 /\
  main (machine [] no_file) ["mdtogo"; "src"; "--full=true"] <> ExitUsage /\
  positionals ["mdtogo"; "--full=true"; "src"; "dst"] = ["src"; "dst"] /\
  main unlistable ["mdtogo"; "--full=true"; "src"; "dst"]
    = ExitReadDir "--full=true".
Proof.
  split; [vm_compute; lia|].
  split; [vm_compute; discriminate|].
  split; vm_compute; reflexivity.
Qed.

(** C3, amended: the source and the destination directory are the second and
    the third entry of the argument vector, whatever they look like, and the
    process stops with the usage message and status 1 exactly when the vector
    (program name included) has fewer than three entries.  Flags are looked
    for in every entry but no entry is removed; when neither of the two
    entries looks like a flag they are the first two positional arguments. *)
Theorem arguments_by_position (os : OS) (args : list string) :
  (main os args = ExitUsage <-> List.length args < 3) /\
  status ExitUsage = 1%Z /\
  (forall now, stderr now ExitUsage = usage) /\
  (forall prog source dest more,
     args = prog :: source :: dest :: more ->
     main os args = run os (read_flags args) source dest /\
     (HasPrefix source "--" = false -> HasPrefix dest "--" = false ->
      firstn 2 (positionals args) = [source; dest])).
Proof.
  split; [|split; [reflexivity|split; [reflexivity|]]].
  - unfold main. destruct (Nat.ltb_spec (List.length args) 3) as [H|H].
    + tauto.
    + split; [|lia]. intros E. exfalso. exact (run_not_usage _ _ _ _ E).
  - intros prog source dest more ->. split; [reflexivity|].
    intros Hs Hd. unfold positionals. simpl. rewrite Hs, Hd. reflexivity.
Qed.

(** ** Rendering *)

Lemma append_inv_head (a b c : string) : (a ++ b = a ++ c)%string -> b = c.
Proof.
  induction a as [|x a IH]; simpl; [tauto|]. intros [= H]. exact (IH H).
Qed.

(** The declaration of a field that holds text is not the declaration of an
    empty field. *)
Lemma decl_not_empty (name s1 s2 text : string) :
  In s1 ["Short"; "Long"; "Examples"] -> In s2 ["Short"; "Long"; "Examples"] ->
  text <> "" -> decl name s1 text <> decl name s2 "".
Proof.
  intros H1 H2 Ht E. unfold decl in E.
  apply (append_inv_head "var ") in E. apply append_inv_head in E.
  assert (Hlast : (text ++ str BACKTICK)%string <> str BACKTICK).
  { destruct text as [|c t]; [congruence|]. simpl. intros [= _ H].
    destruct t; discriminate H. }
  simpl in H1, H2.
  destruct H1 as [<-|[<-|[<-|[]]]]; destruct H2 as [<-|[<-|[<-|[]]]];
    simpl in E; try discriminate E; injection E as E; now apply Hlast.
Qed.

(** C6: the declarations of a document are those of its non-empty fields, in
    the order [Short], [Long], [Examples], one for each; a declaration is
    [var], the name followed by the suffix of the field, [=] and the text of
    the field between backticks; the rendered block is, character for
    character, the declaration of each non-empty field followed by a line
    feed, in that order, and nothing for an empty field (the bare line feed
    when all three are empty); no declaration has an empty value. *)
Theorem declarations_of_filled_fields (d : doc) :
  parts d = map (fun p => decl (Name d) (fst p) (snd p)) (filter filled (fields d)) /\
  List.length (parts d) = List.length (filter filled (fields d)) /\
  String_ d
  = (Join (map (fun p => decl (Name d) (fst p) (snd p)) (filter filled (fields d)))
          (str LF) ++ str LF)%string /\
  String_ d
  = (if (Short d =? "") && (Long d =? "") && (Examples d =? "") then str LF
     else declared (Name d) "Short" (Short d)
          ++ declared (Name d) "Long" (Long d)
          ++ declared (Name d) "Examples" (Examples d))%string /\
  (forall suffix text,
     text <> "" ->
     declared (Name d) suffix text
     = ("var " ++ Name d ++ suffix ++ "=" ++ str BACKTICK ++ text ++ str BACKTICK
        ++ str LF)%string) /\
  (forall suffix, declared (Name d) suffix "" = "") /\
  (forall suffix text,
     decl (Name d) suffix text
     = ("var " ++ Name d ++ suffix ++ "=" ++ str BACKTICK ++ text ++ str BACKTICK)%string) /\
  (forall suffix, In suffix ["Short"; "Long"; "Examples"] ->
                  ~ In (decl (Name d) suffix "") (parts d)).
Proof.
  assert (Hparts : parts d
    = map (fun p => decl (Name d) (fst p) (snd p)) (filter filled (fields d))).
  { unfold parts, fields, filled. simpl.
    destruct (Short d =? "")%string, (Long d =? "")%string,
      (Examples d =? "")%string; reflexivity. }
  split; [exact Hparts|].
  split; [rewrite Hparts; apply length_map|].
  split; [unfold String_; rewrite Hparts; reflexivity|].
  split.
  { unfold String_, parts, declared.
    destruct (Short d =? "")%string, (Long d =? "")%string,
      (Examples d =? "")%string;
      cbn [negb andb app Join]; rewrite ?append_assoc, ?append_empty_r;
      reflexivity. }
  split.
  { intros suffix text Ht. unfold declared, decl.
    rewrite (eqb_empty_false text Ht), !append_assoc. reflexivity. }
  split; [reflexivity|].
  split; [reflexivity|].
  intros suffix Hs Hin. rewrite Hparts in Hin.
  apply in_map_iff in Hin as ([s text] & E & Hf). simpl in E.
  apply filter_In in Hf as [Hf Hfilled].
  unfold filled in Hfilled. simpl in Hfilled.
  apply Bool.negb_true_iff, String.eqb_neq in Hfilled.
  assert (Hs' : In s ["Short"; "Long"; "Examples"]).
  { unfold fields in Hf. simpl in Hf.
    destruct Hf as [[= <- _]|[[= <- _]|[[= <- _]|[]]]]; simpl; tauto. }
  exact (decl_not_empty _ _ _ _ Hs' Hs Hfilled E).
Qed.

Lemma Join_cons (x : string) (xs : list string) (sep : string) :
  Join (x :: xs) sep
  = (x ++ fold_right (fun y acc => sep ++ y ++ acc) "" xs)%string.
Proof.
  revert x. induction xs as [|y ys IH]; intros x.
  - simpl. now rewrite append_empty_r.
  - change (Join (x :: y :: ys) sep) with (x ++ sep ++ Join (y :: ys) sep)%string.
    rewrite IH. reflexivity.
Qed.

Lemma blocks_app (a b : list doc) : blocks (a ++ b) = (blocks a ++ blocks b)%string.
Proof.
  induction a as [|d a IH]; simpl; [reflexivity|].
  rewrite IH, !append_assoc. reflexivity.
Qed.

Lemma blocks_fold (docs : list doc) :
  fold_right (fun y acc => (str LF ++ y ++ acc)%string) "" (map String_ docs)
  = blocks docs.
Proof.
  induction docs as [|d rest IH]; [reflexivity|].
  cbn [map fold_right blocks]. rewrite IH. reflexivity.
Qed.

(** docs.go is the license, a line feed, the marker and the package clause,
    and then the blocks of the documents. *)
Lemma render_blocks (lic dest : string) (docs : list doc) :
  render lic dest docs
  = (lic ++ str LF ++ preamble dest ++ blocks docs)%string.
Proof.
  unfold render. cbn zeta. change ([lic; preamble dest] ++ map String_ docs)
    with (lic :: preamble dest :: map String_ docs).
  rewrite Join_cons. cbn [fold_right]. rewrite blocks_fold. reflexivity.
Qed.

(** C10, as stated, fails in the count: with an empty file [a.md] in the
    source directory docs.go is the docs.go of the empty directory followed by
    two line feeds, the separator of the join and the block of the document.
    It is two characters longer, not one blank line. *)
Lemma empty_document_adds_two_line_feeds :
  exists alone extra : string,
    main (machine [] no_file) ["mdtogo"; "src"; "dst"]
      = Written false "dst/docs.go" alone /\
    main (machine ["a.md"] (fun _ => Ok "")) ["mdtogo"; "src"; "dst"]
      = Written false "dst/docs.go" extra /\
    extra = (alone ++ str LF ++ str LF)%string /\
    extra <> (alone ++ str LF)%string /\
    String.length extra = String.length alone + 2.
Proof.
  do 2 eexists. split; [vm_compute; reflexivity|].
  split; [vm_compute; reflexivity|].
  split; [vm_compute; reflexivity|].
  split; [vm_compute; discriminate | vm_compute; reflexivity].
Qed.

Lemma load_accumulates (os : OS) (full : bool) (source : string)
  (files : list string) :
  forall docs out,
    load os full source files docs = inr out ->
    exists added,
      out = docs ++ added /\
      forall docs', load os full source files docs' = inr (docs' ++ added).
Proof.
  induction files as [|f rest IH]; intros docs out; simpl.
  - intros [= <-]. exists []. split; [now rewrite app_nil_r|].
    intros docs'. now rewrite app_nil_r.
  - destruct (negb (Ext f =? ".md")%string); [apply IH|].
    destruct (ReadFile os (PathJoin os source f)) as [b|e]; [|discriminate].
    destruct (parse full f b) as [d|e]; [|discriminate].
    intros H. destruct (IH _ _ H) as (added & -> & Hall).
    exists (d :: added). rewrite <- app_assoc. split; [reflexivity|].
    intros docs'. rewrite Hall, <- app_assoc. reflexivity.
Qed.

Lemma load_app (os : OS) (full : bool) (source : string)
  (xs ys : list string) :
  forall docs,
    load os full source (xs ++ ys) docs
    = match load os full source xs docs with
      | inl exit => inl exit
      | inr docs' => load os full source ys docs'
      end.
Proof.
  induction xs as [|f rest IH]; intros docs; simpl; [reflexivity|].
  destruct (negb (Ext f =? ".md")%string); [apply IH|].
  destruct (ReadFile os (PathJoin os source f)) as [b|e]; [|reflexivity].
  destruct (parse full f b) as [d|e]; [apply IH | reflexivity].
Qed.

(** C10, amended: a document whose [Short], [Long] and [Examples] are empty
    has the block of a single line feed, and it still shows in docs.go: when
    the source directory lists the file of such a document, the documents can
    be loaded without it too, and docs.go with the file differs from docs.go
    without it by two line feeds at the place of the document, the separator
    of the join and the block. *)
Theorem empty_document_block (os : OS) (full : bool) (source lic dest : string)
  (before after : list string) (f b : string) (d : doc) (loaded : list doc) :
  is_md f = true ->
  ReadFile os (PathJoin os source f) = Ok b ->
  parse full f b = Ok d ->
  Short d = "" -> Long d = "" -> Examples d = "" ->
  load os full source (before ++ f :: after) [] = inr loaded ->
  String_ d = str LF /\
  exists (others : list doc) (head tail : string),
    load os full source (before ++ after) [] = inr others /\
    render lic dest others = (head ++ tail)%string /\
    render lic dest loaded = (head ++ str LF ++ str LF ++ tail)%string.
Proof.
  intros Hmd Hb Hp Hs Hl He Hload.
  assert (Hd : String_ d = str LF).
  { unfold String_, parts. rewrite Hs, Hl, He. reflexivity. }
  split; [exact Hd|].
  rewrite load_app in Hload.
  destruct (load os full source before []) as [o|docs1] eqn:H1; [discriminate|].
  simpl in Hload. unfold is_md in Hmd. rewrite Hmd, Hb, Hp in Hload. simpl in Hload.
  destruct (load_accumulates _ _ _ _ _ _ Hload) as (added & -> & Hall).
  exists (docs1 ++ added),
    (lic ++ str LF ++ preamble dest ++ blocks docs1)%string, (blocks added).
  split; [rewrite load_app, H1; apply Hall|].
  rewrite !render_blocks, !blocks_app. simpl blocks. rewrite Hd.
  rewrite !append_assoc. split; reflexivity.
Qed.

(** The empty file [a.md] in default mode. *)
Lemma empty_document_block_example :
  let os := machine ["a.md"] (fun _ => Ok "") in
  parse false "a.md" "" = Ok (Doc "A" "" "" "") /\
  String_ (Doc "A" "" "" "") = str LF /\
  exists (others : list doc) (head tail : string),
    load os false "src" ([] ++ []) [] = inr others /\
    render "" "dst" others = (head ++ tail)%string /\
    render "" "dst" [Doc "A" "" "" ""] = (head ++ str LF ++ str LF ++ tail)%string.
Proof.
  cbn zeta. split; [reflexivity|].
  apply (empty_document_block (machine ["a.md"] (fun _ => Ok "")) false "src"
           "" "dst" [] [] "a.md" "" (Doc "A" "" "" "") [Doc "A" "" "" ""]);
    reflexivity.
Defined.

(** ** Replacing *)

Lemma prefix_append (p t : string) : String.prefix p (p ++ t) = true.
Proof.
  induction p as [|c p IH]; simpl; [destruct t; reflexivity|].
  destruct (ascii_dec c c); [exact IH | congruence].
Qed.

Lemma replace_from_skip (old new a t : string) :
  replace_from old new (String.length a) (a ++ t) = replace_from old new 0 t.
Proof. induction a as [|c a IH]; simpl; [reflexivity | exact IH]. Qed.

Lemma replace_from_absent (old new s : string) :
  contains s old = false -> replace_from old new 0 s = s.
Proof.
  induction s as [|c s IH]; [reflexivity|].
  cbn [contains replace_from]. intros H.
  apply Bool.orb_false_elim in H as [H1 H2].
  rewrite H1, (IH H2). reflexivity.
Qed.

(** An occurrence at the head is removed, and only it when there is no
    other. *)
Lemma ReplaceAll_head (c : ascii) (old t : string) :
  contains t (String c old) = false ->
  ReplaceAll (String c old ++ t) (String c old) "" = t.
Proof.
  intros H. unfold ReplaceAll.
  change (String c old =? "")%string with false. cbn iota.
  change (replace_from (String c old) "" 0 (String c old ++ t))
    with (if String.prefix (String c old) (String c old ++ t)
          then ("" ++ replace_from (String c old) ""
                        (String.length (String c old) - 1) (old ++ t))%string
          else String c (replace_from (String c old) "" 0 (old ++ t))).
  rewrite prefix_append.
  replace (String.length (String c old) - 1) with (String.length old)
    by (simpl; lia).
  rewrite replace_from_skip. simpl. apply replace_from_absent, H.
Qed.

(** ** The license header *)

Lemma licenseFile_read_flag (f : flags) (a : string) :
  no_license_flag a -> licenseFile (read_flag f a) = licenseFile f.
Proof.
  intros H. unfold read_flag. rewrite H.
  destruct (a =? "--full=true")%string; reflexivity.
Qed.

Lemma licenseFile_fold (args : list string) :
  Forall no_license_flag args ->
  forall f, licenseFile (fold_left read_flag args f) = licenseFile f.
Proof.
  induction 1 as [|a args Ha _ IH]; intros f; [reflexivity|].
  simpl. rewrite IH. now apply licenseFile_read_flag.
Qed.

Lemma load_exit_status (os : OS) (full : bool) (source : string)
  (files : list string) :
  forall docs o, load os full source files docs = inl o -> status o = 1%Z.
Proof.
  induction files as [|f rest IH]; intros docs o; simpl; [discriminate|].
  destruct (negb (Ext f =? ".md")%string); [apply IH|].
  destruct (ReadFile os (PathJoin os source f)); [|now intros [= <-]].
  destruct (parse full f a); [apply IH | now intros [= <-]].
Qed.

(** What [run] writes. *)
Lemma run_written (os : OS) (fl : flags) (source dest : string)
  (mk : bool) (path data : string) :
  run os fl source dest = Written mk path data ->
  exists lic docs,
    license os (licenseFile fl) = Ok lic /\ data = render lic dest docs.
Proof.
  unfold run.
  destruct (ReadDir os source) as [files|e]; [|discriminate].
  destruct (load os (full fl) source files []) as [o|docs] eqn:Hl.
  - intros ->. apply load_exit_status in Hl. discriminate Hl.
  - destruct (license os (licenseFile fl)) as [lic|e]; [|discriminate].
    destruct (WriteFile os _ _); [discriminate|].
    intros [= _ _ <-]. exists lic, docs. split; reflexivity.
Qed.

(** [run] ends with status 1 when the license cannot be obtained. *)
Lemma run_license_error (os : OS) (fl : flags) (source dest e : string) :
  license os (licenseFile fl) = Err e -> status (run os fl source dest) = 1%Z.
Proof.
  intros H. unfold run.
  destruct (ReadDir os source) as [files|e']; [|reflexivity].
  destruct (load os (full fl) source files []) as [o|docs] eqn:Hl.
  - exact (load_exit_status _ _ _ _ _ _ Hl).
  - rewrite H. reflexivity.
Qed.

(** C8, as stated, fails for the empty path: after [--license=] the global
    [licenseFile] is empty as when no flag is given.  No file is read; the
    process writes docs.go with the built-in header and ends with status 0,
    although the file at the empty path cannot be read. *)
Lemma empty_license_path_uses_default :
  let os := machine [] no_file in
  let args := ["mdtogo"; "src"; "dst"; ("--license=" ++ "")%string] in
  ReadFile os "" = Err "no such file or directory" /\
  main os args = Written false "dst/docs.go" (render default_license "dst" []) /\
  status (main os args) = 0%Z.
Proof. cbn zeta. repeat split. Qed.

Lemma main_written (os : OS) (args : list string) (mk : bool)
  (path data : string) :
  main os args = Written mk path data ->
  exists lic docs,
    license os (licenseFile (read_flags args)) = Ok lic /\
    data = render lic (nth 2 args "") docs.
Proof.
  unfold main. destruct (Nat.ltb (List.length args) 3); [discriminate|].
  apply run_written.
Qed.

(** C8, amended: the global [licenseFile] is empty when no argument starts
    with [--license=], and it is [path] after a last such argument
    [--license=path] in which the text [--license=] does not occur again.
    An empty [licenseFile] (no flag, or an empty path) gives the built-in
    header; [none] gives the empty header, and docs.go then starts with two
    line feeds followed by the generated-code marker; any other value gives
    the content of the file of that name, and the process ends with status 1
    when that file cannot be read.  Whenever docs.go is written it is rendered
    with the header so resolved. *)
Theorem license_header (os : OS) (args : list string) :
  let file := licenseFile (read_flags args) in
  (Forall no_license_flag args -> file = "") /\
  (forall before path after,
     args = before ++ ("--license=" ++ path)%string :: after ->
     Forall no_license_flag after ->
     contains path "--license=" = false ->
     file = path) /\
  (file = "" -> license os file = Ok default_license) /\
  (file = "none" ->
     license os file = Ok "" /\
     forall mk p data, main os args = Written mk p data ->
       exists rest, data = (str LF ++ str LF ++ marker ++ rest)%string) /\
  (file <> "" -> file <> "none" ->
     license os file = ReadFile os file /\
     forall e, ReadFile os file = Err e -> status (main os args) = 1%Z) /\
  (forall mk p data, main os args = Written mk p data ->
     exists lic docs,
       license os file = Ok lic /\ data = render lic (nth 2 args "") docs).
Proof.
  cbn zeta. split; [|split; [|split; [|split; [|split]]]].
  - intros H. unfold read_flags. now rewrite licenseFile_fold.
  - intros before path after -> Hafter Hpath.
    unfold read_flags. rewrite fold_left_app. cbn [fold_left].
    rewrite (licenseFile_fold _ Hafter).
    unfold read_flag at 1.
    replace (HasPrefix ("--license=" ++ path) "--license=") with true
      by (symmetry; apply (prefix_append "--license=" path)).
    cbn [licenseFile]. apply (ReplaceAll_head "-" "-license=" path Hpath).
  - intros ->. reflexivity.
  - intros E. rewrite E. split; [reflexivity|].
    intros mk p data H.
    destruct (main_written _ _ _ _ _ H) as (lic & docs & Hlic & ->).
    rewrite E in Hlic. injection Hlic as <-.
    rewrite render_blocks. unfold preamble.
    eexists. cbn [append]. rewrite !append_assoc. reflexivity.
  - intros H1 H2.
    assert (E : license os (licenseFile (read_flags args))
                = ReadFile os (licenseFile (read_flags args))).
    { unfold license.
      now rewrite (eqb_empty_false _ H1), (proj2 (String.eqb_neq _ _) H2). }
    split; [exact E|]. intros e He.
    unfold main. destruct (Nat.ltb (List.length args) 3); [reflexivity|].
    apply (run_license_error _ _ _ _ e). now rewrite E.
  - apply main_written.
Qed.

(** [mdtogo src dst --license=none] on an empty source directory. *)
Lemma license_header_none :
  let args := ["mdtogo"; "src"; "dst"; "--license=none"] in
  licenseFile (read_flags args) = "none" /\
  license (machine [] no_file) "none" = Ok "" /\
  exists rest,
    main (machine [] no_file) args
    = Written false "dst/docs.go" (str LF ++ str LF ++ marker ++ rest).
Proof.
  cbn zeta.
  pose proof (license_header (machine [] no_file)
                ["mdtogo"; "src"; "dst"; "--license=none"]) as H.
  cbn zeta in H. destruct H as (_ & Hpath & _ & Hnone & _).
  assert (E : licenseFile (read_flags ["mdtogo"; "src"; "dst"; "--license=none"])
              = "none").
  { apply (Hpath ["mdtogo"; "src"; "dst"] "none" []);
      [reflexivity | constructor | reflexivity]. }
  split; [exact E|]. destruct (Hnone E) as [Hl Hw].
  split; [exact Hl|].
  destruct (Hw false "dst/docs.go" (render "" "dst" []) eq_refl) as [rest Hr].
  exists rest. rewrite <- Hr. reflexivity.
Defined.

(** ** Names *)

Lemma rev_onto_app (a b t : string) :
  rev_onto (a ++ b) t = rev_onto b (rev_onto a t).
Proof. revert t. induction a as [|c a IH]; intros t; simpl; [reflexivity | apply IH]. Qed.

(** Reading an extension backwards: characters that are neither a dot nor a
    slash are passed over. *)
Lemma ext_scan_rev_onto (x : string) :
  has_char "." x = false -> has_char "/" x = false ->
  forall t acc, ext_scan (rev_onto x t) acc = ext_scan t (x ++ acc).
Proof.
  induction x as [|c x IH]; intros Hd Hs t acc; [reflexivity|].
  cbn [has_char] in Hd, Hs.
  apply Bool.orb_false_elim in Hd as [Hd1 Hd2].
  apply Bool.orb_false_elim in Hs as [Hs1 Hs2].
  cbn [rev_onto]. rewrite (IH Hd2 Hs2). cbn [ext_scan].
  rewrite Hd1, Hs1. reflexivity.
Qed.

Lemma Ext_extension (stem e : string) :
  has_char "." e = false -> has_char "/" e = false ->
  Ext (stem ++ String "." e) = String "." e.
Proof.
  intros Hd Hs. unfold Ext, rev. rewrite rev_onto_app. cbn [rev_onto].
  rewrite (ext_scan_rev_onto e Hd Hs). cbn [ext_scan]. simpl.
  now rewrite append_empty_r.
Qed.

(** A text without dots that is no prefix of [s] is no prefix of [s] followed
    by a dot either. *)
Lemma prefix_no_dot (e : string) :
  has_char "." e = false ->
  forall s t, String.prefix e s = false ->
              String.prefix e (s ++ String "." t) = false.
Proof.
  induction e as [|a e IH]; intros Hd s t H.
  - destruct s; discriminate H.
  - cbn [has_char] in Hd. apply Bool.orb_false_elim in Hd as [Hd1 Hd2].
    destruct s as [|b s]; simpl.
    + destruct (ascii_dec a ".") as [->|]; [discriminate Hd1 | reflexivity].
    + simpl in H. destruct (ascii_dec a b); [now apply IH | reflexivity].
Qed.

Lemma replace_from_head (c : ascii) (old new t : string) :
  replace_from (String c old) new 0 (String c old ++ t)
  = (new ++ replace_from (String c old) new 0 t)%string.
Proof.
  change (replace_from (String c old) new 0 (String c old ++ t))
    with (if String.prefix (String c old) (String c old ++ t)
          then (new ++ replace_from (String c old) new
                         (String.length (String c old) - 1) (old ++ t))%string
          else String c (replace_from (String c old) new 0 (old ++ t))).
  rewrite prefix_append.
  replace (String.length (String c old) - 1) with (String.length old)
    by (simpl; lia).
  now rewrite replace_from_skip.
Qed.

(** Removing the extension when it occurs at the end only. *)
Lemma ReplaceAll_extension (stem e : string) :
  has_char "." e = false ->
  contains stem (String "." e) = false ->
  ReplaceAll (stem ++ String "." e) (String "." e) "" = stem.
Proof.
  intros Hd Hc. unfold ReplaceAll.
  change (String "." e =? "")%string with false. cbn iota.
  induction stem as [|c s IH].
  - pose proof (replace_from_head "." e "" "") as H.
    rewrite append_empty_r in H. exact H.
  - cbn [contains] in Hc. apply Bool.orb_false_elim in Hc as [Hc1 Hc2].
    change (replace_from (String "." e) "" 0 (String c s ++ String "." e))
      with (if String.prefix (String "." e) (String c (s ++ String "." e))
            then ("" ++ replace_from (String "." e) ""
                          (String.length (String "." e) - 1) (s ++ String "." e))%string
            else String c (replace_from (String "." e) "" 0 (s ++ String "." e))).
    replace (String.prefix (String "." e) (String c (s ++ String "." e)))
      with false.
    + now rewrite (IH Hc2).
    + symmetry. cbn [String.prefix]. cbn [String.prefix] in Hc1.
      destruct (ascii_dec "." c); [now apply prefix_no_dot | reflexivity].
Qed.

Lemma ReplaceAll_hyphen (s : string) : ReplaceAll s "-" "" = remove_char "-" s.
Proof.
  unfold ReplaceAll. change ("-" =? "")%string with false. cbn iota.
  induction s as [|c s IH]; [reflexivity|].
  cbn [replace_from remove_char String.prefix].
  destruct (ascii_dec "-" c) as [<-|Hne].
  - destruct s; exact IH.
  - replace (c =? "-")%char with false
      by (symmetry; apply Ascii.eqb_neq; congruence).
    now rewrite IH.
Qed.

Lemma isSeparator_ascii (c : ascii) :
  (N_of_ascii c <? 128)%N = true -> isSeparator c = negb (word_char c).
Proof.
  intros H. apply N.ltb_lt in H. unfold isSeparator, word_char. cbn zeta.
  set (n := N_of_ascii c) in *.
  destruct (N.leb_spec 48 n), (N.leb_spec n 57), (N.leb_spec 97 n),
    (N.leb_spec n 122), (N.leb_spec 65 n), (N.leb_spec n 90),
    (N.eqb_spec n 95), (N.leb_spec n 127); simpl; try reflexivity; lia.
Qed.

Lemma title_from_capitalize (s : string) :
  ascii_only s = true ->
  forall prev, title_from prev s = capitalize (isSeparator prev) s.
Proof.
  induction s as [|c s IH]; intros H prev; [reflexivity|].
  cbn [ascii_only] in H. apply andb_prop in H as [Hc Hs].
  cbn [title_from capitalize]. rewrite (IH Hs), (isSeparator_ascii c Hc).
  reflexivity.
Qed.

(** The extension is removed wherever it occurs, not only at the end. *)
Lemma name_of_repeated_extension : name_of "a.md.md" = "A".
Proof. reflexivity. Qed.

(** C4, as stated, fails: the words of the title case are not the
    white-space-separated ones.  For [my-cmd.md] the program gives [MyCmd],
    as the claim says it does, while stripping the extension, capitalizing
    the white-space-separated words and removing the hyphens gives [Mycmd]. *)
Lemma name_of_not_spec_name :
  name_of "my-cmd.md" = "MyCmd" /\
  spec_name "my-cmd.md" = "Mycmd" /\
  name_of "my-cmd.md" <> spec_name "my-cmd.md".
Proof. repeat split. vm_compute. discriminate. Qed.

(** C4, amended: the name of a document is a function of the file name
    alone, the same for every content and mode.  For an ASCII file name
    [stem.e] whose stem does not contain [.e] again it is the stem with the
    first character of each word in upper case and all hyphens removed, where
    the words are the runs of letters, digits and underscores, so that hyphens
    and dots separate words as white space does; [my-cmd.md] gives [MyCmd],
    [edit.md] gives [Edit] and [my-cmd-name.md] gives [MyCmdName]. *)
Theorem name_of_file_name :
  (forall full name value d, parse full name value = Ok d -> Name d = name_of name) /\
  (forall stem e,
     ascii_only stem = true ->
     has_char "." e = false -> has_char "/" e = false ->
     contains stem (String "." e) = false ->
     name_of (stem ++ String "." e) = remove_char "-" (capitalize true stem)) /\
  name_of "my-cmd.md" = "MyCmd" /\
  name_of "edit.md" = "Edit" /\
  name_of "my-cmd-name.md" = "MyCmdName".
Proof.
  split; [|split; [|repeat split]].
  - intros full name value d. unfold parse.
    destruct (ScanErr value); [discriminate|]. now intros [= <-].
  - intros stem e Ha Hd Hs Hc. unfold name_of.
    rewrite (Ext_extension stem e Hd Hs), (ReplaceAll_extension stem e Hd Hc).
    rewrite ReplaceAll_hyphen. unfold Title.
    now rewrite (title_from_capitalize stem Ha).
Qed.

(** The file name [my-cmd.md]. *)
Lemma name_of_file_name_my_cmd :
  name_of ("my-cmd" ++ String "." "md") = remove_char "-" (capitalize true "my-cmd") /\
  forall d, parse false "my-cmd.md" edit_md = Ok d -> Name d = "MyCmd".
Proof.
  destruct name_of_file_name as (Hparse & Hstem & _).
  split.
  - apply (Hstem "my-cmd" "md"); reflexivity.
  - intros d H. rewrite (Hparse false "my-cmd.md" edit_md d H). reflexivity.
Defined.

(** ** Escaped backticks *)

Lemma ReplaceAll_backtick (s : string) :
  ReplaceAll s (str BACKTICK) backtick_escape = escape s.
Proof.
  unfold ReplaceAll.
  change (str BACKTICK =? backtick_escape)%string with false.
  change (str BACKTICK =? "")%string with false. cbn iota.
  induction s as [|c s IH]; [reflexivity|].
  cbn [replace_from escape str String.prefix].
  destruct (ascii_dec BACKTICK c) as [<-|Hne].
  - change (BACKTICK =? BACKTICK)%char with true. cbn iota.
    destruct s; cbn [String.length Nat.sub]; rewrite <- IH; reflexivity.
  - replace (c =? BACKTICK)%char with false
      by (symmetry; apply Ascii.eqb_neq; congruence).
    now rewrite IH.
Qed.

Lemma without_cr_app (a b : string) :
  without_cr (a ++ b) = (without_cr a ++ without_cr b)%string.
Proof.
  induction a as [|c a IH]; simpl; [reflexivity|].
  destruct (c =? CR)%char; simpl; now rewrite IH.
Qed.

(** Inside a raw string literal an escaped text reads as the text itself,
    carriage returns apart. *)
Lemma value_escape (s rest : string) :
  value_from Raw (escape s ++ rest)
  = option_map (append (without_cr s)) (value_from Raw rest).
Proof.
  induction s as [|c s IH].
  - simpl. destruct (value_from Raw rest); reflexivity.
  - cbn [escape without_cr].
    destruct (c =? BACKTICK)%char eqn:Eb.
    + apply Ascii.eqb_eq in Eb. subst c.
      change (BACKTICK =? CR)%char with false. cbn iota.
      rewrite append_assoc.
      change (value_from Raw (backtick_escape ++ escape s ++ rest))
        with (option_map (String BACKTICK) (value_from Raw (escape s ++ rest))).
      rewrite IH. destruct (value_from Raw rest); reflexivity.
    + cbn [append value_from]. rewrite Eb.
      destruct (c =? CR)%char; [exact IH|].
      rewrite IH. destruct (value_from Raw rest); reflexivity.
Qed.

Lemma value_stored (p : bool * string) (rest : string) :
  value_from Raw (stored (fst p) (snd p) ++ rest)
  = option_map (append (without_cr (shown p))) (value_from Raw rest).
Proof.
  destruct p as [[|] line]; unfold stored, shown; cbn [fst snd];
    rewrite ReplaceAll_backtick.
  - cbn [str append value_from].
    change (TAB =? BACKTICK)%char with false.
    change (TAB =? CR)%char with false. cbn iota.
    rewrite value_escape. cbn [without_cr].
    change (TAB =? CR)%char with false. cbn iota.
    destruct (value_from Raw rest); reflexivity.
  - apply value_escape.
Qed.

Lemma value_stored_lines (items : list (bool * string)) (rest : string) :
  value_from Raw
    (Join (map (fun p => stored (fst p) (snd p)) items) (str LF) ++ rest)
  = option_map (append (without_cr (Join (map shown items) (str LF))))
      (value_from Raw rest).
Proof.
  induction items as [|p items IH].
  - simpl. destruct (value_from Raw rest); reflexivity.
  - destruct items as [|q items].
    + cbn [map Join]. apply value_stored.
    + change (Join (map (fun p => stored (fst p) (snd p)) (p :: q :: items)) (str LF))
        with (stored (fst p) (snd p) ++ str LF
              ++ Join (map (fun p => stored (fst p) (snd p)) (q :: items)) (str LF))%string.
      change (Join (map shown (p :: q :: items)) (str LF))
        with (shown p ++ str LF ++ Join (map shown (q :: items)) (str LF))%string.
      rewrite !append_assoc, value_stored.
      cbn [str append value_from].
      change (LF =? BACKTICK)%char with false.
      change (LF =? CR)%char with false. cbn iota.
      rewrite IH, !without_cr_app. cbn [without_cr].
      change (LF =? CR)%char with false. cbn iota.
      destruct (value_from Raw rest); cbn [option_map]; [|reflexivity].
      now rewrite !append_assoc.
Qed.

(** The lines stored for [Long] and [Examples] come back: the initializer
    written for texts stored by [parse] denotes the lines themselves, with
    their tabs, joined by line feeds; only carriage returns are lost, which a
    raw string literal cannot hold. *)
Lemma stored_round_trip (items : list (bool * string)) :
  go_value (initializer (Join (map (fun p => stored (fst p) (snd p)) items) (str LF)))
  = Some (without_cr (Join (map shown items) (str LF))).
Proof.
  unfold go_value, initializer. cbn [str append value_from].
  change (BACKTICK =? BACKTICK)%char with true. cbn iota.
  rewrite value_stored_lines.
  change (value_from Raw (str BACKTICK)) with (Some EmptyString).
  cbn [option_map]. now rewrite append_empty_r.
Qed.

Lemma fences_kept (lines : list string) :
  forall inside,
    map snd (fences inside lines)
    = map (fun p => stored (fst p) (snd p)) (kept inside lines).
Proof.
  induction lines as [|line rest IH]; intros inside; [reflexivity|].
  cbn [fences kept]. destruct (HasPrefix line fence); [apply IH|].
  cbn [map fst snd]. now rewrite IH.
Qed.

(** In full mode the declaration of [Long] denotes the lines the capture left,
    fence lines dropped, lines of code blocks after a tab. *)
Lemma full_mode_long_value (name value : string) (d : doc) :
  ScanErr value = false ->
  parse true name value = Ok d ->
  go_value (initializer (Long d))
  = Some (without_cr
            (Join (map shown (kept false (body (ScanLines value)))) (str LF))).
Proof.
  intros H Hd. rewrite (parse_passes true name value H) in Hd.
  injection Hd as <-. cbn [Long]. rewrite sections_full. cbn [fst].
  rewrite fences_kept. apply stored_round_trip.
Qed.

(** C5 fails on the code for the short description: the captured line is not
    escaped.  For [## get / Use `get`.] the declaration of [Short] holds the
    backticks of the line as they are and is no Go string expression any
    more, while the same line stored for [Long] or [Examples] reads back as
    itself. *)
Theorem short_backtick_not_escaped :
  exists d : doc,
    parse false "get.md" backtick_md = Ok d /\
    Short d = "Use `get`." /\
    parts d = ["var GetShort=`Use `get`.`"] /\
    go_value (initializer (Short d)) = None /\
    go_value (initializer (stored false "Use `get`.")) = Some "Use `get`.".
Proof.
  eexists. split; [vm_compute; reflexivity|].
  cbn [Short]. repeat split.
Qed.

(** ** Instances *)

(** The flag after the two directories, and a call with one directory. *)
Lemma arguments_by_position_flag_last :
  let args := ["mdtogo"; "src"; "dst"; "--full=true"] in
  main (machine [] no_file) args
    = run (machine [] no_file) (read_flags args) "src" "dst" /\
  firstn 2 (positionals args) = ["src"; "dst"] /\
  main (machine [] no_file) ["mdtogo"; "src"] = ExitUsage.
Proof.
  cbn zeta.
  destruct (arguments_by_position (machine [] no_file)
              ["mdtogo"; "src"; "dst"; "--full=true"]) as (_ & _ & _ & H).
  destruct (H "mdtogo" "src" "dst" ["--full=true"] eq_refl) as [Hrun Hpos].
  split; [exact Hrun|]. split; [apply Hpos; reflexivity|].
  apply (arguments_by_position (machine [] no_file) ["mdtogo"; "src"]).
  simpl. lia.
Defined.

(** A document without [Long]: two declarations, each on its line. *)
Lemma declarations_of_filled_fields_two :
  let d := Doc "Edit" "Edit a resource." "" "kubectl edit pod/foo" in
  parts d = [decl "Edit" "Short" "Edit a resource.";
             decl "Edit" "Examples" "kubectl edit pod/foo"] /\
  String_ d
  = ("var EditShort=`Edit a resource.`" ++ str LF
     ++ "var EditExamples=`kubectl edit pod/foo`" ++ str LF)%string /\
  ~ In (decl "Edit" "Long" "") (parts d).
Proof.
  cbn zeta.
  destruct (declarations_of_filled_fields
              (Doc "Edit" "Edit a resource." "" "kubectl edit pod/foo"))
    as (Hparts & _ & _ & Hblock & Hline & Hnone & _ & Hempty).
  split; [exact Hparts|].
  split; [|apply Hempty; simpl; tauto].
  rewrite Hblock. cbn [Short Long Examples Name] in *.
  change (("Edit a resource." =? "") && ("" =? "")
          && ("kubectl edit pod/foo" =? ""))%string with false. cbn iota.
  rewrite (Hline "Short" "Edit a resource."), (Hnone "Long"),
    (Hline "Examples" "kubectl edit pod/foo") by discriminate.
  reflexivity.
Defined.

(** * Further properties of the program *)

(** ** The scanner of [parse] *)

Lemma has_char_rev_onto (c : ascii) (s acc : string) :
  has_char c (rev_onto s acc) = has_char c s || has_char c acc.
Proof.
  revert acc. induction s as [|a s IH]; intros acc; [reflexivity|].
  cbn [rev_onto has_char]. rewrite IH. cbn [has_char].
  destruct (a =? c)%char, (has_char c s), (has_char c acc); reflexivity.
Qed.

Lemma rev_onto_rev_onto (s a b : string) :
  rev_onto (rev_onto s a) b = rev_onto a (s ++ b).
Proof.
  revert a. induction s as [|c s IH]; intros a; [reflexivity|].
  cbn [rev_onto append]. rewrite IH. reflexivity.
Qed.

Lemma rev_rev (s : string) : rev (rev s) = s.
Proof. unfold rev. rewrite rev_onto_rev_onto. apply append_empty_r. Qed.

Lemma rev_append_char (s : string) (c : ascii) :
  rev (s ++ str c) = String c (rev s).
Proof. unfold rev. rewrite rev_onto_app. reflexivity. Qed.

Lemma dropCR_no_cr (seg : string) : has_char CR seg = false -> dropCR seg = seg.
Proof.
  intros H. unfold dropCR.
  destruct (rev seg) as [|c r] eqn:E; [reflexivity|].
  assert (Hc : has_char CR (rev seg) = false).
  { unfold rev. rewrite has_char_rev_onto, H. reflexivity. }
  rewrite E in Hc. cbn [has_char] in Hc.
  apply Bool.orb_false_elim in Hc as [Hc _]. rewrite Hc. reflexivity.
Qed.

Lemma dropCR_append_cr (seg : string) : dropCR (seg ++ str CR) = seg.
Proof.
  unfold dropCR. rewrite rev_append_char.
  change (CR =? CR)%char with true. cbn iota. apply rev_rev.
Qed.

Lemma has_char_dropCR (c : ascii) (seg : string) :
  has_char c seg = false -> has_char c (dropCR seg) = false.
Proof.
  intros H. unfold dropCR.
  destruct (rev seg) as [|a r] eqn:E; [exact H|].
  destruct (a =? CR)%char; [|exact H].
  assert (Hr : has_char c (rev seg) = false).
  { unfold rev. rewrite has_char_rev_onto, H. reflexivity. }
  rewrite E in Hr. cbn [has_char] in Hr.
  apply Bool.orb_false_elim in Hr as [_ Hr].
  unfold rev. rewrite has_char_rev_onto, Hr. reflexivity.
Qed.

Lemma segments_not_nil (s : string) : segments s <> [].
Proof.
  destruct s as [|c s]; simpl; [discriminate|].
  destruct (c =? LF)%char; [discriminate|].
  destruct (segments s); discriminate.
Qed.

Lemma segments_no_lf (s : string) :
  Forall (fun seg => has_char LF seg = false) (segments s).
Proof.
  induction s as [|c s IH]; cbn [segments]; [repeat constructor|].
  destruct (c =? LF)%char eqn:E; [constructor; [reflexivity | exact IH]|].
  destruct (segments s) as [|seg rest]; [repeat constructor; simpl; now rewrite E|].
  apply Forall_cons_iff in IH as [Hseg Hrest].
  constructor; [cbn [has_char]; now rewrite E, Hseg | exact Hrest].
Qed.

Lemma segments_keep (c : ascii) (s : string) :
  has_char c s = false ->
  Forall (fun seg => has_char c seg = false) (segments s).
Proof.
  induction s as [|a s IH]; cbn [segments has_char]; intros H;
    [repeat constructor|].
  apply Bool.orb_false_elim in H as [Ha Hs]. specialize (IH Hs).
  destruct (a =? LF)%char; [constructor; [reflexivity | exact IH]|].
  destruct (segments s) as [|seg rest];
    [repeat constructor; simpl; now rewrite Ha|].
  apply Forall_cons_iff in IH as [Hseg Hrest].
  constructor; [cbn [has_char]; now rewrite Ha, Hseg | exact Hrest].
Qed.

Lemma tokens_from_segments (segs : list string) (t : string) :
  In t (tokens segs) -> exists seg, In seg segs /\ t = dropCR seg.
Proof.
  induction segs as [|seg rest IH]; [intros []|].
  destruct rest as [|r rest'].
  - cbn [tokens]. destruct (seg =? "")%string; [intros []|].
    intros [<-|[]]. exists seg. split; [now left | reflexivity].
  - change (tokens (seg :: r :: rest')) with (dropCR seg :: tokens (r :: rest')).
    intros [<-|H]; [exists seg; split; [now left | reflexivity]|].
    destruct (IH H) as (s & Hs & ->). exists s. split; [now right | reflexivity].
Qed.

(** No line the scanner delivers holds a line feed. *)
Lemma ScanLines_no_lf (value line : string) :
  In line (ScanLines value) -> has_char LF line = false.
Proof.
  intros H. apply tokens_from_segments in H as (seg & Hseg & ->).
  apply has_char_dropCR.
  exact (proj1 (Forall_forall _ _) (segments_no_lf value) seg Hseg).
Qed.

Lemma segments_append_lf (s : string) :
  segments (s ++ str LF) = segments s ++ [""].
Proof.
  induction s as [|c s IH]; [reflexivity|].
  cbn [append segments]. rewrite IH.
  destruct (c =? LF)%char; [reflexivity|].
  pose proof (segments_not_nil s) as Hn.
  destruct (segments s) as [|seg rest]; [congruence | reflexivity].
Qed.

Lemma tokens_closed (segs : list string) :
  segs <> [] -> tokens (segs ++ [""]) = map dropCR segs.
Proof.
  induction segs as [|seg rest IH]; [congruence|]. intros _.
  destruct rest as [|r rest']; [reflexivity|].
  change (tokens ((seg :: r :: rest') ++ [""]))
    with (dropCR seg :: tokens ((r :: rest') ++ [""])).
  rewrite IH by discriminate. reflexivity.
Qed.

(** A text that ends in a character other than a line feed: its last line
    is delivered too. *)
Lemma tokens_open (s : string) (c : ascii) :
  (c =? LF)%char = false ->
  tokens (segments (s ++ str c)) = map dropCR (segments (s ++ str c)).
Proof.
  intros Hc. induction s as [|a s IH].
  - cbn [append str segments]. rewrite Hc. reflexivity.
  - cbn [append segments].
    pose proof (segments_not_nil (s ++ str c)) as Hn.
    destruct (segments (s ++ str c)) as [|seg rest]; [congruence|].
    destruct (a =? LF)%char.
    + change (tokens ("" :: seg :: rest)) with (dropCR "" :: tokens (seg :: rest)).
      rewrite IH. reflexivity.
    + destruct rest as [|r rest']; [reflexivity|].
      change (tokens (String a seg :: r :: rest'))
        with (dropCR (String a seg) :: tokens (r :: rest')).
      change (tokens (seg :: r :: rest'))
        with (dropCR seg :: tokens (r :: rest')) in IH.
      injection IH as IH. cbn [map]. f_equal. exact IH.
Qed.

(** X1: a line feed at the end of a file that ends in another character
    changes nothing: [parse] gives the same result with and without it. *)
Theorem final_line_feed (full : bool) (name s : string) (c : ascii) :
  (c =? LF)%char = false ->
  parse full name ((s ++ str c) ++ str LF) = parse full name (s ++ str c).
Proof.
  intros Hc. unfold parse, ScanLines, ScanErr.
  rewrite segments_append_lf, existsb_app.
  rewrite (tokens_closed _ (segments_not_nil _)), (tokens_open s c Hc).
  cbn [existsb]. change (too_long "") with false. cbn [orb].
  rewrite Bool.orb_false_r. reflexivity.
Qed.

(** The document of the example with its last line closed. *)
Lemma final_line_feed_edit :
  parse false "edit.md" (("## edit" ++ str "!") ++ str LF)
  = parse false "edit.md" ("## edit" ++ str "!").
Proof. apply (final_line_feed false "edit.md" "## edit" "!"). reflexivity. Defined.

Lemma add_cr_cons (seg : string) (rest : list string) :
  rest <> [] -> add_cr (seg :: rest) = (seg ++ str CR)%string :: add_cr rest.
Proof. destruct rest; [congruence | reflexivity]. Qed.

Lemma add_cr_head (c : ascii) (seg : string) (rest : list string) :
  add_cr (String c seg :: rest)
  = match add_cr (seg :: rest) with
    | s :: r => String c s :: r
    | [] => [str c]
    end.
Proof. destruct rest; reflexivity. Qed.

Lemma segments_to_crlf (s : string) :
  segments (to_crlf s) = add_cr (segments s).
Proof.
  induction s as [|c s IH]; [reflexivity|].
  cbn [to_crlf segments].
  pose proof (segments_not_nil s) as Hn.
  destruct (c =? LF)%char eqn:E.
  - cbn [segments]. change (CR =? LF)%char with false.
    change (LF =? LF)%char with true. cbn iota.
    rewrite IH, (add_cr_cons "" _ Hn). reflexivity.
  - cbn [segments]. rewrite E, IH.
    destruct (segments s) as [|seg rest]; [congruence|].
    symmetry. apply add_cr_head.
Qed.

Lemma tokens_add_cr (segs : list string) :
  Forall (fun seg => has_char CR seg = false) segs ->
  tokens (add_cr segs) = tokens segs.
Proof.
  induction 1 as [|seg rest Hseg _ IH]; [reflexivity|].
  destruct rest as [|r rest']; [reflexivity|].
  change (add_cr (seg :: r :: rest'))
    with ((seg ++ str CR)%string :: add_cr (r :: rest')).
  change (tokens (seg :: r :: rest')) with (dropCR seg :: tokens (r :: rest')).
  assert (Hne : add_cr (r :: rest') <> []) by (destruct rest'; discriminate).
  destruct (add_cr (r :: rest')) as [|x xs]; [congruence|].
  change (tokens ((seg ++ str CR)%string :: x :: xs))
    with (dropCR (seg ++ str CR) :: tokens (x :: xs)).
  rewrite IH, dropCR_append_cr, (dropCR_no_cr seg Hseg). reflexivity.
Qed.

Lemma string_length_append (a b : string) :
  String.length (a ++ b) = String.length a + String.length b.
Proof. induction a as [|x a IH]; simpl; [reflexivity | now rewrite IH]. Qed.

Lemma too_long_shorter (a b : string) :
  String.length a <= String.length b -> too_long b = false -> too_long a = false.
Proof.
  unfold too_long, length_N. intros Hle Hb.
  apply N.leb_gt in Hb. apply N.leb_gt. lia.
Qed.

Lemma too_long_add_cr (segs : list string) :
  existsb too_long (add_cr segs) = false -> existsb too_long segs = false.
Proof.
  induction segs as [|seg rest IH]; [reflexivity|].
  destruct rest as [|r rest']; [tauto|].
  change (add_cr (seg :: r :: rest'))
    with ((seg ++ str CR)%string :: add_cr (r :: rest')).
  intros H.
  change (too_long (seg ++ str CR) || existsb too_long (add_cr (r :: rest')) = false)
    in H.
  apply Bool.orb_false_elim in H as [H1 H2].
  change (too_long seg || existsb too_long (r :: rest') = false).
  rewrite (too_long_shorter seg (seg ++ str CR)), (IH H2);
    [reflexivity | rewrite string_length_append; lia | exact H1].
Qed.

(** X2: a file with carriage return, line feed at the end of its lines is
    parsed like the file with plain line feeds: for a text without carriage
    returns, turning every line feed into the pair leaves the result of
    [parse] as it is, unless a line thereby gets too long for the scanner. *)
Theorem crlf_line_endings (full : bool) (name value : string) :
  has_char CR value = false ->
  ScanErr (to_crlf value) = false ->
  parse full name (to_crlf value) = parse full name value.
Proof.
  intros Hcr Herr. unfold parse, ScanLines.
  rewrite Herr. unfold ScanErr in *. rewrite segments_to_crlf in *.
  rewrite (too_long_add_cr _ Herr), (tokens_add_cr _ (segments_keep CR value Hcr)).
  reflexivity.
Qed.

(** The document of the example with the line endings of Windows. *)
Lemma crlf_line_endings_edit :
  has_char CR edit_md = false /\
  ScanErr (to_crlf edit_md) = false /\
  parse false "edit.md" (to_crlf edit_md) = parse false "edit.md" edit_md.
Proof.
  split; [reflexivity|]. split; [vm_compute; reflexivity|].
  apply (crlf_line_endings false "edit.md" edit_md);
    [reflexivity | vm_compute; reflexivity].
Defined.

Lemma segments_line (line : string) :
  has_char LF line = false -> segments line = [line].
Proof.
  induction line as [|c l IH]; [reflexivity|].
  cbn [has_char segments]. intros H.
  apply Bool.orb_false_elim in H as [Hc Hl]. rewrite Hc, (IH Hl). reflexivity.
Qed.

Lemma segments_line_then (line rest : string) :
  has_char LF line = false ->
  segments (line ++ str LF ++ rest) = line :: segments rest.
Proof.
  induction line as [|c l IH]; intros H.
  - cbn [append str segments]. change (LF =? LF)%char with true. reflexivity.
  - cbn [has_char] in H. apply Bool.orb_false_elim in H as [Hc Hl].
    cbn [append segments]. rewrite Hc, (IH Hl). reflexivity.
Qed.

Lemma segments_Join (lines : list string) :
  lines <> [] ->
  Forall (fun l => has_char LF l = false) lines ->
  segments (Join lines (str LF)) = lines.
Proof.
  intros Hn H. induction H as [|l rest Hl Hrest IH]; [congruence|].
  destruct rest as [|l2 rest']; [apply (segments_line l Hl)|].
  change (Join (l :: l2 :: rest') (str LF))
    with (l ++ str LF ++ Join (l2 :: rest') (str LF))%string.
  rewrite (segments_line_then l _ Hl), IH by discriminate. reflexivity.
Qed.

Lemma tokens_lines (lines : list string) :
  Forall (fun l => has_char CR l = false) lines ->
  last lines "" <> "" -> tokens lines = lines.
Proof.
  induction 1 as [|l rest Hl _ IH]; [reflexivity|].
  destruct rest as [|l2 rest']; cbn [last]; intros Hlast.
  - cbn [tokens]. now rewrite (eqb_empty_false l Hlast), (dropCR_no_cr l Hl).
  - change (tokens (l :: l2 :: rest')) with (dropCR l :: tokens (l2 :: rest')).
    rewrite (dropCR_no_cr l Hl), (IH Hlast). reflexivity.
Qed.

Lemma ScanLines_Join (lines : list string) :
  Forall (fun l => has_char LF l = false) lines ->
  Forall (fun l => has_char CR l = false) lines ->
  last lines "" <> "" ->
  ScanLines (Join lines (str LF)) = lines /\
  ScanErr (Join lines (str LF)) = existsb too_long lines.
Proof.
  intros Hlf Hcr Hlast.
  assert (Hn : lines <> []) by (intros ->; now apply Hlast).
  unfold ScanLines, ScanErr. rewrite (segments_Join lines Hn Hlf).
  split; [apply (tokens_lines lines Hcr Hlast) | reflexivity].
Qed.

(** X3: a text written line by line is read line by line.  For lines without
    line feeds and carriage returns, each shorter than the scanner's buffer
    and the last one not empty, [parse] of their join by line feeds returns a
    document, and its fields are what the loop of [parse] leaves after these
    very lines. *)
Theorem parse_joined_lines (full : bool) (name : string) (lines : list string) :
  Forall (fun l => has_char LF l = false) lines ->
  Forall (fun l => has_char CR l = false) lines ->
  last lines "" <> "" ->
  existsb too_long lines = false ->
  parse full name (Join lines (str LF))
  = Ok {| Name := name_of name;
          Short := short (scan full init lines);
          Long := Join (long (scan full init lines)) (str LF);
          Examples := Join (examples (scan full init lines)) (str LF) |}.
Proof.
  intros Hlf Hcr Hlast Hlen.
  destruct (ScanLines_Join lines Hlf Hcr Hlast) as [Hl He].
  unfold parse. rewrite He, Hlen, Hl. reflexivity.
Qed.

(** A heading, a blank line and the short description. *)
Lemma parse_joined_lines_edit :
  parse false "edit.md" (Join ["## edit"; ""; "Edit a resource."] (str LF))
  = Ok (Doc "Edit" "Edit a resource." "" "").
Proof.
  apply (parse_joined_lines false "edit.md" ["## edit"; ""; "Edit a resource."]);
    [repeat constructor | repeat constructor | discriminate | reflexivity].
Defined.

Lemma segments_length (s : string) :
  Forall (fun seg => String.length seg <= String.length s) (segments s).
Proof.
  induction s as [|c s IH]; cbn [segments]; [repeat constructor|].
  assert (Hw : Forall (fun seg => String.length seg <= String.length (String c s))
                 (segments s)).
  { eapply Forall_impl; [|exact IH]. intros seg H. simpl in *. lia. }
  destruct (c =? LF)%char; [constructor; [simpl; lia | exact Hw]|].
  destruct (segments s) as [|seg rest];
    [constructor; [simpl; lia | constructor]|].
  apply Forall_cons_iff in IH as [Hseg _].
  apply Forall_cons_iff in Hw as [_ Hrest].
  constructor; [simpl in *; lia | exact Hrest].
Qed.

(** X4: [parse] never aborts on a text shorter than the scanner's buffer of
    65536 bytes: it returns a document. *)
Theorem short_text_is_parsed (full : bool) (name value : string) :
  (length_N value < MaxScanTokenSize)%N ->
  ScanErr value = false /\ exists d : doc, parse full name value = Ok d.
Proof.
  intros H.
  assert (E : ScanErr value = false).
  { unfold ScanErr. apply Bool.not_true_is_false. intros Hex.
    apply existsb_exists in Hex as (seg & Hin & Hlong).
    pose proof (proj1 (Forall_forall _ _) (segments_length value) seg Hin) as Hle.
    unfold too_long, length_N, MaxScanTokenSize in *.
    apply N.leb_le in Hlong. lia. }
  split; [exact E|]. eexists. apply (parse_passes full name value E).
Qed.

Lemma short_text_is_parsed_edit :
  (length_N edit_md < MaxScanTokenSize)%N /\
  exists d : doc, parse true "edit.md" edit_md = Ok d.
Proof.
  split; [reflexivity|].
  apply (short_text_is_parsed true "edit.md" edit_md). reflexivity.
Defined.

(** ** The documents [parse] returns *)

Lemma parse_ok_inv (full : bool) (name value : string) (d : doc) :
  parse full name value = Ok d ->
  ScanErr value = false /\
  Name d = name_of name /\
  Short d = captured (ScanLines value) /\
  Long d = Join (fst (sections full false false
                        (fences false (body (ScanLines value))))) (str LF) /\
  Examples d = Join (snd (sections full false false
                            (fences false (body (ScanLines value))))) (str LF).
Proof.
  intros H. destruct (ScanErr value) eqn:E.
  - rewrite (parse_scan_error full name value E) in H. discriminate H.
  - rewrite (parse_passes full name value E) in H. injection H as <-.
    repeat split.
Qed.

Lemma first_text_in (rs rs' : list string) (text : string) :
  first_text rs = Some (text, rs') ->
  In text rs /\ forall P : string -> Prop, Forall P rs -> Forall P rs'.
Proof.
  induction rs as [|t rs IH]; simpl; [discriminate|].
  destruct (TrimSpace t =? "")%string.
  - intros H. destruct (IH H) as [Hin Hall]. split; [now right|].
    intros P HP. apply Hall. now apply Forall_cons_iff in HP.
  - intros [= <- <-]. split; [now left|].
    intros P HP. now apply Forall_cons_iff in HP.
Qed.

Lemma first_text_blanks (blanks : list string) :
  Forall (fun b => TrimSpace b = "") blanks -> first_text blanks = None.
Proof.
  induction 1 as [|b bs Hb _ IH]; [reflexivity|].
  simpl. rewrite Hb. exact IH.
Qed.

Lemma captured_origin (lines : list string) :
  captured lines = "" \/
  (In (captured lines) lines /\ TrimSpace (captured lines) <> "").
Proof.
  induction lines as [|line rest IH]; [now left|].
  cbn [captured]. destruct (HasPrefix line "## ").
  - destruct (first_text rest) as [[text rs]|] eqn:E; [|now left].
    right. split; [right; exact (proj1 (first_text_in _ _ _ E))|].
    exact (first_text_not_blank _ _ _ E).
  - destruct IH as [IH|[IH1 IH2]]; [now left|]. right. split; [now right | exact IH2].
Qed.

Lemma captured_no_heading (lines : list string) :
  Forall (fun l => HasPrefix l "## " = false) lines -> captured lines = "".
Proof.
  induction 1 as [|l rest Hl _ IH]; [reflexivity|].
  cbn [captured]. rewrite Hl. exact IH.
Qed.

Lemma body_Forall (P : string -> Prop) (lines : list string) :
  Forall P lines -> Forall P (body lines).
Proof.
  induction 1 as [|l rest Hl Hrest IH]; [constructor|].
  cbn [body]. destruct (HasPrefix l "## "); [|constructor; assumption].
  destruct (first_text rest) as [[text rs]|] eqn:E; [|constructor].
  exact (proj2 (first_text_in _ _ _ E) P Hrest).
Qed.

(** X5: where [Short] comes from.  [Short] never holds a line feed; it is
    empty, or it is one of the lines of the text, and then not a blank one;
    it is empty when no line starts with [## ]. *)
Theorem short_origin (full : bool) (name value : string) (d : doc) :
  parse full name value = Ok d ->
  has_char LF (Short d) = false /\
  (Short d = "" \/
   (In (Short d) (ScanLines value) /\ TrimSpace (Short d) <> "")) /\
  (Forall (fun l => HasPrefix l "## " = false) (ScanLines value) ->
   Short d = "").
Proof.
  intros H. destruct (parse_ok_inv _ _ _ _ H) as (_ & _ & -> & _).
  pose proof (captured_origin (ScanLines value)) as Ho.
  split; [|split; [exact Ho | apply captured_no_heading]].
  destruct Ho as [->|[Hin _]]; [reflexivity|].
  exact (ScanLines_no_lf value _ Hin).
Qed.

(** A text without heading. *)
Lemma short_origin_no_heading :
  exists d : doc,
    parse true "x.md" "plain text" = Ok d /\
    has_char LF (Short d) = false /\ Short d = "".
Proof.
  exists (Doc "X" "" "plain text" ""). split; [reflexivity|].
  destruct (short_origin true "x.md" "plain text" (Doc "X" "" "plain text" "")
              eq_refl) as (H1 & _ & H3).
  split; [exact H1|]. apply H3. repeat constructor.
Defined.

(** X6: a heading with nothing but blank lines after it takes the rest of
    the text with it.  When the first line that starts with [## ] is followed
    by blank lines only, [Short] is empty and [Long] and [Examples] hold what
    the lines before the heading gave, in either mode. *)
Theorem heading_without_text (full : bool) (name value : string) (d : doc)
  (pre blanks : list string) (heading : string) :
  parse full name value = Ok d ->
  ScanLines value = pre ++ heading :: blanks ->
  Forall (fun l => HasPrefix l "## " = false) pre ->
  HasPrefix heading "## " = true ->
  Forall (fun b => TrimSpace b = "") blanks ->
  Short d = "" /\
  Long d = Join (long (scan full init pre)) (str LF) /\
  Examples d = Join (examples (scan full init pre)) (str LF).
Proof.
  intros H Hlines Hpre Hh Hb.
  assert (Hscan : scan full init (ScanLines value) = scan full init pre).
  { rewrite Hlines, (scan_app_plain full pre _ Hpre).
    rewrite (scan_capture full _ heading _ Hh) by (now rewrite short_scan_plain).
    now rewrite (first_text_blanks blanks Hb). }
  unfold parse in H. destruct (ScanErr value); [discriminate|].
  injection H as <-. cbn [Short Long Examples]. rewrite Hscan.
  split; [now rewrite short_scan_plain | split; reflexivity].
Qed.

(** A heading at the end of the text, in full mode. *)
Lemma heading_without_text_last :
  exists d : doc,
    parse true "x.md" (text_of ["intro"; "## x"; ""; " "]) = Ok d /\
    Short d = "" /\ Long d = "intro" /\ Examples d = "".
Proof.
  eexists. split; [vm_compute; reflexivity|].
  apply (heading_without_text true "x.md" (text_of ["intro"; "## x"; ""; " "])
           _ ["intro"] [""; " "] "## x");
    [vm_compute; reflexivity | vm_compute; reflexivity | repeat constructor
    | reflexivity | repeat constructor].
Defined.

Lemma fences_fst (P : string -> Prop) (lines : list string) :
  Forall P lines -> forall inside, Forall (fun it => P (fst it)) (fences inside lines).
Proof.
  induction 1 as [|l rest Hl _ IH]; intros inside; [constructor|].
  cbn [fences]. destruct (HasPrefix l fence); [apply IH|].
  constructor; [exact Hl | apply IH].
Qed.

Lemma sections_none (items : list (string * string)) :
  Forall (fun it => no_section (fst it)) items ->
  sections false false false items = ([], []).
Proof.
  induction 1 as [|[line text] rest [H1 H2] _ IH]; [reflexivity|].
  cbn [sections fst] in *. rewrite H1, H2. cbn [negb andb].
  destruct (HasPrefix line "### "); [exact IH|].
  rewrite IH. reflexivity.
Qed.

(** X7: in default mode nothing is collected outside the two sections.  A
    text in which no line starts with [### Synopsis] or [### Examples] gets
    an empty [Long] and an empty [Examples], whatever else it holds. *)
Theorem default_mode_without_sections (name value : string) (d : doc) :
  parse false name value = Ok d ->
  Forall no_section (ScanLines value) ->
  Long d = "" /\ Examples d = "".
Proof.
  intros H Hn. destruct (parse_ok_inv _ _ _ _ H) as (_ & _ & _ & -> & ->).
  rewrite (sections_none _ (fences_fst _ _ (body_Forall _ _ Hn) false)).
  split; reflexivity.
Qed.

(** A text with a subsection that is neither of the two. *)
Lemma default_mode_without_sections_notes :
  exists d : doc,
    parse false "x.md" (text_of ["## x"; "Short."; "### Notes"; "text"]) = Ok d /\
    Long d = "" /\ Examples d = "".
Proof.
  eexists. split; [vm_compute; reflexivity|].
  apply (default_mode_without_sections "x.md"
           (text_of ["## x"; "Short."; "### Notes"; "text"]));
    [vm_compute; reflexivity | repeat constructor].
Defined.

Lemma no_backtick_not_fence (line : string) :
  no_backtick line -> HasPrefix line fence = false.
Proof.
  unfold no_backtick, HasPrefix, fence. destruct line as [|c l]; [reflexivity|].
  cbn [has_char String.prefix]. intros H.
  apply Bool.orb_false_elim in H as [H _].
  destruct (ascii_dec "`" c) as [<-|]; [discriminate H | reflexivity].
Qed.

Lemma escape_plain (line : string) : no_backtick line -> escape line = line.
Proof.
  unfold no_backtick. induction line as [|c l IH]; [reflexivity|].
  cbn [has_char escape]. intros H. apply Bool.orb_false_elim in H as [Hc Hl].
  rewrite Hc, (IH Hl). reflexivity.
Qed.

Lemma stored_plain (inside : bool) (line : string) :
  no_backtick line -> stored inside line = shown (inside, line).
Proof.
  intros H. unfold stored, shown. cbn [fst snd].
  now rewrite ReplaceAll_backtick, (escape_plain line H).
Qed.

Lemma fences_plain (lines rest : list string) (inside : bool) :
  Forall no_backtick lines ->
  fences inside (lines ++ rest)
  = map (fun l => (l, shown (inside, l))) lines ++ fences inside rest.
Proof.
  induction 1 as [|l ls Hl _ IH]; [reflexivity|].
  cbn [app fences map]. rewrite (no_backtick_not_fence l Hl), IH.
  now rewrite (stored_plain inside l Hl).
Qed.

Lemma map_snd_pair (f : string -> string) (lines : list string) :
  map snd (map (fun l => (l, f l)) lines) = map f lines.
Proof. induction lines as [|l ls IH]; [reflexivity|]. cbn [map snd]. now rewrite IH. Qed.

Lemma map_id_lines (lines : list string) :
  map (fun l => shown (false, l)) lines = lines.
Proof. induction lines as [|l ls IH]; [reflexivity|]. cbn [map]. now rewrite IH. Qed.

(** X8: in full mode a text without backticks is kept line by line.  [Long]
    is then exactly the lines that the capture of the short description left,
    headings among them, joined by line feeds. *)
Theorem full_mode_plain_text (name value : string) (d : doc) :
  parse true name value = Ok d ->
  Forall no_backtick (ScanLines value) ->
  Long d = Join (body (ScanLines value)) (str LF).
Proof.
  intros H Hn. destruct (parse_ok_inv _ _ _ _ H) as (_ & _ & _ & -> & _).
  rewrite sections_full. cbn [fst].
  pose proof (fences_plain (body (ScanLines value)) [] false
                (body_Forall _ _ Hn)) as Hf.
  rewrite app_nil_r in Hf. rewrite Hf. cbn [fences]. rewrite app_nil_r.
  now rewrite map_snd_pair, map_id_lines.
Qed.

(** The document of the example, in full mode. *)
Lemma full_mode_plain_text_edit :
  exists d : doc,
    parse true "edit.md" edit_md = Ok d /\
    Long d = Join (body (ScanLines edit_md)) (str LF).
Proof.
  eexists. split; [vm_compute; reflexivity|].
  apply (full_mode_plain_text "edit.md" edit_md);
    [vm_compute; reflexivity | vm_compute; repeat constructor].
Defined.

(** X9: a code block in full mode.  When the lines left by the capture are
    lines without backticks, a line starting with three backticks, the lines
    of the block, again a line starting with three backticks, and more lines
    without backticks, [Long] holds the lines outside the block as they are
    and the lines of the block after one tab each; the two fence lines are
    gone. *)
Theorem code_block_lines (name value : string) (d : doc)
  (before code after : list string) (opening closing : string) :
  parse true name value = Ok d ->
  body (ScanLines value) = before ++ opening :: code ++ closing :: after ->
  Forall no_backtick before -> Forall no_backtick code ->
  Forall no_backtick after ->
  HasPrefix opening fence = true -> HasPrefix closing fence = true ->
  Long d = Join (before ++ map (append (str TAB)) code ++ after) (str LF).
Proof.
  intros H Hb Hbefore Hcode Hafter Ho Hc.
  destruct (parse_ok_inv _ _ _ _ H) as (_ & _ & _ & -> & _).
  rewrite sections_full, Hb. cbn [fst].
  rewrite (fences_plain before _ false Hbefore). cbn [fences]. rewrite Ho.
  cbn [negb]. rewrite (fences_plain code _ true Hcode). cbn [fences].
  rewrite Hc. cbn [negb].
  pose proof (fences_plain after [] false Hafter) as Hf.
  rewrite app_nil_r in Hf. rewrite Hf. cbn [fences].
  rewrite !map_app, !map_snd_pair, app_nil_r, !map_id_lines. reflexivity.
Qed.

(** The document with the command in a code block. *)
Lemma code_block_lines_fenced :
  exists d : doc,
    parse true "run.md" (text_of ["## run"; "Run it."; "Use:"; "```sh"; "make run"; "```"; "Done."])
      = Ok d /\
    Long d = Join (["Use:"] ++ map (append (str TAB)) ["make run"] ++ ["Done."]) (str LF).
Proof.
  eexists. split; [vm_compute; reflexivity|].
  apply (code_block_lines "run.md"
           (text_of ["## run"; "Run it."; "Use:"; "```sh"; "make run"; "```"; "Done."])
           _ ["Use:"] ["make run"] ["Done."] "```sh" "```");
    try (vm_compute; reflexivity); repeat constructor.
Defined.

(** ** The two sections of the default mode *)

Lemma prefix_shorter (p q s : string) :
  String.prefix (p ++ q) s = true -> String.prefix p s = true.
Proof.
  revert s. induction p as [|a p IH]; intros s; [destruct s; reflexivity|].
  destruct s as [|b s]; cbn [append String.prefix]; [discriminate|].
  destruct (ascii_dec a b); [apply IH | discriminate].
Qed.

Lemma prefix_branch (p x y s : string) (a b : ascii) :
  String.prefix (p ++ String a x) s = true ->
  String.prefix (p ++ String b y) s = true -> a = b.
Proof.
  revert s. induction p as [|c p IH]; intros s; [apply prefix_head|].
  destruct s as [|d s]; cbn [append String.prefix]; [discriminate|].
  destruct (ascii_dec c d); [apply IH | discriminate].
Qed.

Lemma not_subsection (line h : string) :
  HasPrefix line "### " = false -> HasPrefix line ("### " ++ h) = false.
Proof.
  intros H. destruct (HasPrefix line ("### " ++ h)) eqn:E; [|reflexivity].
  apply prefix_shorter in E. unfold HasPrefix in H. congruence.
Qed.

Lemma examples_not_synopsis (line : string) :
  HasPrefix line "### Examples" = true -> HasPrefix line "### Synopsis" = false.
Proof.
  intros H. destruct (HasPrefix line "### Synopsis") eqn:E; [|reflexivity].
  pose proof (prefix_branch "### " "xamples" "ynopsis" line "E" "S" H E) as X.
  discriminate X.
Qed.

Lemma sections_skip (lines : list string) (f : string -> string)
  (rest : list (string * string)) :
  Forall no_section lines ->
  sections false false false (map (fun l => (l, f l)) lines ++ rest)
  = sections false false false rest.
Proof.
  induction 1 as [|l ls [H1 H2] _ IH]; [reflexivity|].
  cbn [map app sections]. rewrite H1, H2. cbn [negb andb].
  destruct (HasPrefix l "### "); [exact IH|].
  rewrite IH. destruct (sections false false false rest). reflexivity.
Qed.

Lemma sections_collect (lines : list string) (f : string -> string)
  (l e : bool) (rest : list (string * string)) :
  Forall (fun x => HasPrefix x "### " = false) lines ->
  sections false l e (map (fun x => (x, f x)) lines ++ rest)
  = (if l then map f lines ++ fst (sections false l e rest)
     else fst (sections false l e rest),
     if l then snd (sections false l e rest)
     else if e then map f lines ++ snd (sections false l e rest)
     else snd (sections false l e rest)).
Proof.
  induction 1 as [|x xs Hx _ IH].
  - cbn [map app]. destruct (sections false l e rest), l, e; reflexivity.
  - cbn [map app sections].
    pose proof (not_subsection x "Synopsis" Hx) as Hs.
    pose proof (not_subsection x "Examples" Hx) as He.
    change (HasPrefix x "### Synopsis" = false) in Hs.
    change (HasPrefix x "### Examples" = false) in He.
    rewrite Hs, He, Hx.
    cbn [negb andb]. rewrite IH. rewrite Bool.orb_false_r.
    destruct l, e; reflexivity.
Qed.

(** X10: the layout the program is written for.  In default mode, for a text
    that reads: a heading [## ...], blank lines, a line of text, lines outside
    the sections, [### Synopsis], the lines of the synopsis, [### Examples],
    the lines of the examples, and then nothing or another subsection, all
    without backticks before the end of the examples, [Short] is the line of
    text, [Long] the lines of the synopsis and [Examples] the lines of the
    examples, joined by line feeds, blank lines included. *)
Theorem sections_of_the_layout (name value : string) (d : doc)
  (heading text syn ex : string) (blanks before ltxt etxt tail : list string) :
  parse false name value = Ok d ->
  ScanLines value
  = heading :: blanks ++ text :: before ++ syn :: ltxt ++ ex :: etxt ++ tail ->
  HasPrefix heading "## " = true ->
  Forall (fun b => TrimSpace b = "") blanks ->
  TrimSpace text <> "" ->
  Forall no_backtick before -> Forall no_section before ->
  HasPrefix syn "### Synopsis" = true ->
  Forall no_backtick ltxt -> Forall (fun l => HasPrefix l "### " = false) ltxt ->
  HasPrefix ex "### Examples" = true ->
  Forall no_backtick etxt -> Forall (fun l => HasPrefix l "### " = false) etxt ->
  tail = [] \/ HasPrefix (hd "" tail) "### " = true ->
  Forall no_section tail ->
  Short d = text /\
  Long d = Join ltxt (str LF) /\
  Examples d = Join etxt (str LF).
Proof.
  intros H Hlines Hh Hb Ht Hbq Hbs Hsyn Hlq Hlh Hex Heq Heh Htail Hts.
  destruct (parse_ok_inv _ _ _ _ H) as (_ & _ & -> & -> & ->).
  rewrite Hlines. cbn [captured body]. rewrite Hh.
  rewrite (first_text_skips blanks _ text Hb Ht).
  split; [reflexivity|].
  rewrite (fences_plain before _ false Hbq), (sections_skip before _ _ Hbs).
  cbn [fences]. rewrite (heading_not_fence syn _ Hsyn).
  cbn [sections]. rewrite Hsyn. cbn [negb andb].
  rewrite (fences_plain ltxt _ false Hlq), (sections_collect ltxt _ true false _ Hlh).
  cbn [fences]. rewrite (heading_not_fence ex _ Hex).
  cbn [sections]. rewrite (examples_not_synopsis ex Hex), Hex. cbn [negb andb].
  rewrite (fences_plain etxt _ false Heq), (sections_collect etxt _ false true _ Heh).
  assert (Hend : sections false false true (fences false tail) = ([], [])).
  { destruct Htail as [->|Hhd]; [reflexivity|].
    destruct tail as [|h t]; [reflexivity|]. cbn [hd] in Hhd.
    apply Forall_cons_iff in Hts as [[H1 H2] Hts].
    cbn [fences]. rewrite (heading_not_fence h _ Hhd).
    cbn [sections]. rewrite H1, H2, Hhd. cbn [negb andb].
    apply sections_none, fences_fst, Hts. }
  rewrite Hend. cbn [fst snd]. rewrite !app_nil_r, !map_id_lines.
  split; reflexivity.
Qed.

(** The document of the example followed by a subsection. *)
Lemma sections_of_the_layout_edit :
  exists d : doc,
    parse false "edit.md" (edit_md ++ str LF ++ text_of ["### See"; "```"]) = Ok d /\
    Short d = "Edit a resource." /\
    Long d = Join [""; "Edit the named resource in place."; ""] (str LF) /\
    Examples d = Join [""; "kubectl edit pod/foo"] (str LF).
Proof.
  eexists. split; [vm_compute; reflexivity|].
  apply (sections_of_the_layout "edit.md"
           (edit_md ++ str LF ++ text_of ["### See"; "```"]) _
           "## edit" "Edit a resource." "### Synopsis" "### Examples"
           [""] [""] [""; "Edit the named resource in place."; ""]
           [""; "kubectl edit pod/foo"] ["### See"; "```"]);
    try (vm_compute; reflexivity); try (vm_compute; discriminate);
    try (right; reflexivity); repeat constructor.
Defined.

(** ** What the declarations denote *)

Lemma sections_chosen (full : bool) (lines : list string) :
  forall inside l e,
    sections full l e (fences inside lines)
    = (map (fun p => stored (fst p) (snd p))
           (fst (chosen full l e (kept inside lines))),
       map (fun p => stored (fst p) (snd p))
           (snd (chosen full l e (kept inside lines)))).
Proof.
  induction lines as [|line rest IH]; intros inside l e; [reflexivity|].
  cbn [fences kept]. destruct (HasPrefix line fence); [apply IH|].
  cbn [sections chosen snd].
  destruct (negb full && HasPrefix line "### Synopsis"); [apply IH|].
  destruct (negb full && HasPrefix line "### Examples"); [apply IH|].
  destruct (negb full && HasPrefix line "### "); [apply IH|].
  rewrite IH.
  destruct (chosen full l e (kept inside rest)) as [lo ex].
  destruct (l || full); [reflexivity|]. destruct e; reflexivity.
Qed.

Lemma utf8_run_app (a b : string) :
  forall st,
    utf8_run st (a ++ b)
    = match utf8_run st a with
      | Some st' => utf8_run st' b
      | None => None
      end.
Proof.
  induction a as [|c a IH]; intros st; [reflexivity|].
  cbn [append utf8_run]. destruct (utf8_step st c); [apply IH | reflexivity].
Qed.

(** A backtick is read between runes only. *)
Lemma utf8_step_backtick (st st' : utf8) :
  utf8_step st BACKTICK = Some st' -> st = Between /\ st' = Between.
Proof.
  destruct st; cbn; try discriminate. intros [= <-]. split; reflexivity.
Qed.

Lemma utf8_run_escape (line : string) :
  forall st st', utf8_run st line = Some st' ->
                 utf8_run st (escape line) = Some st'.
Proof.
  induction line as [|c l IH]; intros st st' H; [exact H|].
  cbn [utf8_run escape] in *.
  destruct (c =? BACKTICK)%char eqn:E.
  - apply Ascii.eqb_eq in E. subst c.
    destruct (utf8_step st BACKTICK) as [st1|] eqn:Hs; [|discriminate H].
    apply utf8_step_backtick in Hs as [-> ->].
    rewrite utf8_run_app.
    change (utf8_run Between backtick_escape) with (Some Between).
    now apply IH.
  - cbn [utf8_run]. destruct (utf8_step st c); [now apply IH | discriminate H].
Qed.

Lemma go_text_run (s : string) :
  go_text s = true <-> utf8_run Between s = Some Between.
Proof.
  unfold go_text. split.
  - destruct (utf8_run Between s) as [[]|]; try discriminate. reflexivity.
  - intros ->. reflexivity.
Qed.

Lemma go_text_stored (p : bool * string) :
  go_text (snd p) = true ->
  utf8_run Between (stored (fst p) (snd p)) = Some Between.
Proof.
  intros H. apply go_text_run in H. unfold stored.
  rewrite ReplaceAll_backtick.
  destruct (fst p); [|now apply utf8_run_escape].
  rewrite utf8_run_app.
  change (utf8_run Between (str TAB)) with (Some Between). cbn iota.
  now apply utf8_run_escape.
Qed.

Lemma go_text_stored_lines (items : list (bool * string)) :
  Forall (fun p => go_text (snd p) = true) items ->
  utf8_run Between
    (Join (map (fun p => stored (fst p) (snd p)) items) (str LF))
  = Some Between.
Proof.
  induction 1 as [|p rest Hp Hrest IH]; [reflexivity|].
  destruct rest as [|q rest']; [exact (go_text_stored p Hp)|].
  change (Join (map (fun p => stored (fst p) (snd p)) (p :: q :: rest')) (str LF))
    with (stored (fst p) (snd p) ++ str LF
          ++ Join (map (fun p => stored (fst p) (snd p)) (q :: rest')) (str LF))%string.
  rewrite utf8_run_app, (go_text_stored p Hp). exact IH.
Qed.

(** The initializer of texts stored from lines of Go source text is Go
    source text. *)
Lemma go_text_initializer (items : list (bool * string)) :
  Forall (fun p => go_text (snd p) = true) items ->
  go_text (initializer
             (Join (map (fun p => stored (fst p) (snd p)) items) (str LF)))
  = true.
Proof.
  intros H. apply go_text_run. unfold initializer.
  rewrite utf8_run_app.
  change (utf8_run Between (str BACKTICK)) with (Some Between). cbn iota.
  rewrite utf8_run_app, (go_text_stored_lines items H). reflexivity.
Qed.

Lemma kept_Forall (P : string -> Prop) (lines : list string) :
  Forall P lines ->
  forall inside, Forall (fun p => P (snd p)) (kept inside lines).
Proof.
  induction 1 as [|l rest Hl _ IH]; intros inside; [constructor|].
  cbn [kept]. destruct (HasPrefix l fence); [apply IH|].
  constructor; [exact Hl | apply IH].
Qed.

Lemma chosen_Forall (Q : bool * string -> Prop) (full : bool)
  (items : list (bool * string)) :
  Forall Q items ->
  forall l e, Forall Q (fst (chosen full l e items)) /\
              Forall Q (snd (chosen full l e items)).
Proof.
  induction 1 as [|p rest Hp _ IH]; intros l e; [split; constructor|].
  cbn [chosen].
  destruct (negb full && HasPrefix (snd p) "### Synopsis"); [apply IH|].
  destruct (negb full && HasPrefix (snd p) "### Examples"); [apply IH|].
  destruct (negb full && HasPrefix (snd p) "### "); [apply IH|].
  destruct (IH l e) as [H1 H2].
  destruct (chosen full l e rest) as [lo ex]. cbn [fst snd] in *.
  destruct (l || full); [split; [constructor|]; assumption|].
  destruct e; split; try constructor; assumption.
Qed.

(** X11: the declarations of [Long] and [Examples] are Go string expressions
    that denote the collected lines.  For every document that [parse] returns
    for a text whose lines are Go source text (valid UTF-8 without the NUL
    character and without byte order mark), in either mode, the initializer
    written for [Long] (for [Examples]) is Go source text as well and
    evaluates to the lines collected for it, each after a tab when it was
    read inside a code block, joined by line feeds, with their backticks;
    only carriage returns, which a raw string literal cannot hold, are
    lost. *)
Theorem declared_values (full : bool) (name value : string) (d : doc) :
  parse full name value = Ok d ->
  Forall (fun l => go_text l = true) (ScanLines value) ->
  let c := chosen full false false (kept false (body (ScanLines value))) in
  source_value (initializer (Long d))
  = Some (without_cr (Join (map shown (fst c)) (str LF))) /\
  source_value (initializer (Examples d))
  = Some (without_cr (Join (map shown (snd c)) (str LF))).
Proof.
  intros H Hv. cbn zeta.
  destruct (parse_ok_inv _ _ _ _ H) as (_ & _ & _ & -> & ->).
  rewrite sections_chosen. cbn [fst snd].
  destruct (chosen_Forall (fun p => go_text (snd p) = true) full _
              (kept_Forall _ _ (body_Forall _ _ Hv) false) false false)
    as [Hlo Hex].
  unfold source_value.
  rewrite (go_text_initializer _ Hlo), (go_text_initializer _ Hex).
  split; apply stored_round_trip.
Qed.

(** A synopsis with backticks, a letter outside ASCII and a code block. *)
Lemma declared_values_backticks :
  let e_acute := (str (ascii_of_N 195) ++ str (ascii_of_N 169))%string in
  let value := text_of ["### Synopsis"; ("Use `get` " ++ e_acute)%string;
                        "```"; "get `x`"] in
  exists d : doc,
    parse false "get.md" value = Ok d /\
    source_value (initializer (Long d))
    = Some (Join [("Use `get` " ++ e_acute)%string;
                  (str TAB ++ "get `x`")%string] (str LF)).
Proof.
  cbn zeta. eexists. split; [vm_compute; reflexivity|].
  apply (declared_values false "get.md"
           (text_of ["### Synopsis";
                     ("Use `get` " ++ str (ascii_of_N 195) ++ str (ascii_of_N 169))%string;
                     "```"; "get `x`"])).
  - vm_compute. reflexivity.
  - vm_compute. repeat constructor.
Defined.

(** A line with a NUL character, a stray continuation byte or a byte order
    mark gives an initializer that is no Go source text. *)
Lemma source_value_rejects :
  source_value (initializer (stored false (str (ascii_of_N 0)))) = None /\
  source_value (initializer (stored false (str (ascii_of_N 255)))) = None /\
  source_value (initializer (stored false
     (str (ascii_of_N 239) ++ str (ascii_of_N 187) ++ str (ascii_of_N 191)))) = None.
Proof. repeat split. Qed.

(** ** The variables of the loop *)

Lemma step_modes (full : bool) (v : vars) (line : string) :
  isLong v && isExample v = false ->
  isLong (step full v line) && isExample (step full v line) = false.
Proof.
  intros H. unfold step.
  destruct (isLong v) eqn:EL, (isExample v) eqn:EE; try discriminate H;
    repeat match goal with |- context [if ?c then _ else _] => destruct c end;
    simpl; rewrite ?EL, ?EE; reflexivity.
Qed.

Lemma scan_modes_after_capture (full : bool) (lines : list string) :
  forall v, short v <> "" -> isLong v && isExample v = false ->
            isLong (scan full v lines) && isExample (scan full v lines) = false.
Proof.
  induction lines as [|line rest IH]; intros v Hs H; [exact H|].
  rewrite scan_step by (rewrite (eqb_empty_false _ Hs); apply Bool.andb_false_r).
  apply IH; [now rewrite short_step | now apply step_modes].
Qed.

(** X12: the loop of [parse] is never in both sections at once.  Started
    with at most one of [isLong] and [isExample] set, as [parse] starts it,
    it ends with at most one of them set, whatever the lines are. *)
Theorem one_section_at_a_time (full : bool) (lines : list string) (v : vars) :
  isLong v && isExample v = false ->
  isLong (scan full v lines) && isExample (scan full v lines) = false.
Proof.
  revert v. induction lines as [|line rest IH]; intros v H; [exact H|].
  destruct (HasPrefix line "## " && (short v =? "")%string) eqn:E.
  - apply andb_prop in E as [Hh Hs]. apply String.eqb_eq in Hs.
    rewrite (scan_capture full v line rest Hh Hs).
    destruct (first_text rest) as [[text rs]|] eqn:Hf; [|exact H].
    apply scan_modes_after_capture; [|exact H].
    simpl. exact (first_text_not_empty _ _ _ Hf).
  - rewrite (scan_step full v line rest E). apply IH. now apply step_modes.
Qed.

(** From the start of [parse], over the document of the example. *)
Lemma one_section_at_a_time_edit :
  isLong (scan false init (ScanLines edit_md))
  && isExample (scan false init (ScanLines edit_md)) = false.
Proof. apply (one_section_at_a_time false (ScanLines edit_md) init). reflexivity. Defined.

(** ** Names and file names *)

Lemma has_char_remove_char (c : ascii) (s : string) :
  has_char c (remove_char c s) = false.
Proof.
  induction s as [|a s IH]; [reflexivity|].
  cbn [remove_char]. destruct (a =? c)%char eqn:E; [exact IH|].
  cbn [has_char]. now rewrite E, IH.
Qed.

(** X13: the name of the variables never holds a hyphen, whatever the file
    is called. *)
Theorem name_without_hyphen (full : bool) (name value : string) (d : doc) :
  parse full name value = Ok d -> has_char "-" (Name d) = false.
Proof.
  intros H. destruct (parse_ok_inv _ _ _ _ H) as (_ & -> & _).
  unfold name_of. rewrite ReplaceAll_hyphen. apply has_char_remove_char.
Qed.

(** The file [my-cmd-name.md]. *)
Lemma name_without_hyphen_my_cmd_name :
  exists d : doc,
    parse false "my-cmd-name.md" edit_md = Ok d /\ has_char "-" (Name d) = false.
Proof.
  eexists. split; [vm_compute; reflexivity|].
  apply (name_without_hyphen false "my-cmd-name.md" edit_md). vm_compute. reflexivity.
Defined.

Lemma rev_onto_acc (r acc : string) :
  rev_onto r acc = (rev_onto r "" ++ acc)%string.
Proof.
  revert acc. induction r as [|c r IH]; intros acc; [reflexivity|].
  cbn [rev_onto]. rewrite (IH (String c acc)), (IH (String c "")).
  rewrite append_assoc. reflexivity.
Qed.

(** What [filepath.Ext] returns is the end of the path. *)
Lemma ext_scan_suffix (r : string) :
  forall acc, ext_scan r acc <> "" ->
              exists stem, rev_onto r acc = (stem ++ ext_scan r acc)%string.
Proof.
  induction r as [|c r IH]; intros acc H; [now contradiction H|].
  cbn [ext_scan rev_onto] in *.
  destruct (c =? "/")%char; [now contradiction H|].
  destruct (c =? ".")%char; [|apply IH, H].
  exists (rev_onto r ""). apply rev_onto_acc.
Qed.

(** X14: the entries [main] reads are those whose name ends in [.md]: the
    test on the extension holds exactly for the names of the form stem
    followed by [.md], the stem being anything, even empty or with more
    dots. *)
Theorem md_files (f : string) :
  is_md f = true <-> exists stem : string, f = (stem ++ ".md")%string.
Proof.
  unfold is_md. split.
  - intros H. apply String.eqb_eq in H.
    destruct (ext_scan_suffix (rev f) "") as [stem Hs].
    { fold (Ext f). rewrite H. discriminate. }
    fold (Ext f) in Hs. fold (rev (rev f)) in Hs. rewrite rev_rev, H in Hs.
    now exists stem.
  - intros [stem ->]. apply String.eqb_eq.
    apply (Ext_extension stem "md"); reflexivity.
Qed.

(** ** The flags *)

Lemma full_read_flag (f : flags) (a : string) :
  full (read_flag f a) = full f || (a =? "--full=true")%string.
Proof.
  unfold read_flag.
  destruct (a =? "--full=true")%string, (HasPrefix a "--license=");
    cbn [full]; now rewrite ?Bool.orb_true_r, ?Bool.orb_false_r.
Qed.

Lemma full_fold (args : list string) :
  forall f, full (fold_left read_flag args f)
            = full f || existsb (fun a => (a =? "--full=true")%string) args.
Proof.
  induction args as [|a args IH]; intros f; cbn [fold_left existsb].
  - now rewrite Bool.orb_false_r.
  - rewrite IH, full_read_flag, Bool.orb_assoc. reflexivity.
Qed.

(** X15: full mode is on exactly when some entry of the argument vector is
    the text [--full=true], wherever it stands; no other spelling turns it
    on and nothing turns it off. *)
Theorem full_mode_flag (args : list string) :
  full (read_flags args) = true <-> In "--full=true" args.
Proof.
  unfold read_flags. rewrite full_fold. cbn [full orb].
  rewrite existsb_exists. split.
  - intros (a & Hin & Ha). apply String.eqb_eq in Ha. now subst a.
  - intros H. exists "--full=true". split; [exact H | reflexivity].
Qed.

(** ** The package clause *)

Lemma strip_slashes_rev_onto (x t : string) :
  x <> "" -> has_char "/" x = false ->
  strip_slashes (rev_onto x t) = rev_onto x t.
Proof.
  revert t. induction x as [|c x IH]; intros t Hn Hs; [congruence|].
  cbn [has_char] in Hs. apply Bool.orb_false_elim in Hs as [Hc Hx].
  cbn [rev_onto]. destruct x as [|c' x'].
  - cbn [rev_onto strip_slashes]. now rewrite Hc.
  - apply IH; [discriminate | exact Hx].
Qed.

Lemma strip_slashes_only (s t : string) :
  only_slashes s = true -> strip_slashes (rev_onto s t) = strip_slashes t.
Proof.
  revert t. induction s as [|c s IH]; intros t H; [reflexivity|].
  cbn [only_slashes] in H. apply andb_prop in H as [Hc Hs].
  cbn [rev_onto]. rewrite (IH _ Hs). cbn [strip_slashes]. now rewrite Hc.
Qed.

Lemma last_element_rev_onto (x : string) :
  has_char "/" x = false ->
  forall t acc, last_element (rev_onto x t) acc = last_element t (x ++ acc).
Proof.
  induction x as [|c x IH]; intros Hs t acc; [reflexivity|].
  cbn [has_char] in Hs. apply Bool.orb_false_elim in Hs as [Hc Hx].
  cbn [rev_onto]. rewrite (IH Hx). cbn [last_element]. now rewrite Hc.
Qed.

Lemma Base_last (parent d slashes : string) :
  d <> "" -> has_char "/" d = false -> only_slashes slashes = true ->
  parent = "" \/ (exists p, parent = (p ++ "/")%string) ->
  Base (parent ++ d ++ slashes) = d.
Proof.
  intros Hn Hs Hsl Hp. unfold Base.
  replace (parent ++ d ++ slashes =? "")%string with false.
  2:{ symmetry. apply String.eqb_neq. destruct parent; [|discriminate].
      destruct d; [congruence | discriminate]. }
  unfold rev. rewrite !rev_onto_app, (strip_slashes_only _ _ Hsl).
  rewrite (strip_slashes_rev_onto d _ Hn Hs), (last_element_rev_onto d Hs).
  rewrite append_empty_r.
  replace (last_element (rev_onto parent "") d) with d.
  - now rewrite (eqb_empty_false d Hn).
  - destruct Hp as [->|[p ->]]; [reflexivity|].
    rewrite rev_onto_app. reflexivity.
Qed.

(** X16: the package of docs.go is the last element of the destination
    path.  For a directory name [d] without slash, the marker and package
    clause written for [d], for [d] under any parent directory and for either
    followed by slashes, as in [DEST_GO_DIR/], are the same and name the
    package [d]. *)
Theorem package_of_destination (p d slashes : string) :
  d <> "" -> has_char "/" d = false -> only_slashes slashes = true ->
  preamble (d ++ slashes)
  = (str LF ++ marker ++ str LF ++ "package " ++ d ++ str LF)%string /\
  preamble ((p ++ "/") ++ d ++ slashes) = preamble (d ++ slashes).
Proof.
  intros Hn Hs Hsl. unfold preamble.
  rewrite (Base_last (p ++ "/") d slashes Hn Hs Hsl)
    by (right; now exists p).
  pose proof (Base_last "" d slashes Hn Hs Hsl (or_introl eq_refl)) as H.
  cbn [append] in H. rewrite H. split; reflexivity.
Qed.

(** The destination [pkg/commands/]. *)
Lemma package_of_destination_commands :
  preamble ("pkg/" ++ "commands" ++ "/")
  = (str LF ++ marker ++ str LF ++ "package commands" ++ str LF)%string.
Proof.
  destruct (package_of_destination "pkg" "commands" "/") as [H1 H2];
    [discriminate | reflexivity | reflexivity |].
  exact (eq_trans H2 H1).
Defined.

(** A file name that ends in [.md], and the flag among other arguments. *)
Lemma md_files_edit : is_md "edit.md" = true.
Proof. apply (proj2 (md_files "edit.md")). now exists "edit". Defined.

Lemma full_mode_flag_last :
  full (read_flags ["mdtogo"; "src"; "dst"; "--full=true"]) = true.
Proof.
  apply (proj2 (full_mode_flag ["mdtogo"; "src"; "dst"; "--full=true"])).
  simpl. tauto.
Defined.

(** ** The run of [main] *)

Lemma load_filter (os : OS) (full : bool) (source : string) (files : list string) :
  forall docs,
    load os full source files docs = load os full source (filter is_md files) docs.
Proof.
  induction files as [|f rest IH]; intros docs; [reflexivity|].
  cbn [load filter]. unfold is_md at 1.
  destruct (Ext f =? ".md")%string eqn:E; cbn [negb]; [|apply IH].
  cbn [load]. rewrite E. cbn [negb].
  destruct (ReadFile os (PathJoin os source f)) as [b|e]; [|reflexivity].
  destruct (parse full f b); [apply IH | reflexivity].
Qed.

(** X17: entries without the extension [.md] play no part.  The documents
    loaded from a directory are those loaded from its [.md] entries alone, and
    they are the same on two machines that agree on the content of the [.md]
    entries, whatever reading the other entries would give. *)
Theorem other_entries_ignored (os os' : OS) (full : bool) (source : string)
  (files : list string) (docs : list doc) :
  (forall f, In f files -> is_md f = true ->
             ReadFile os (PathJoin os source f)
             = ReadFile os' (PathJoin os' source f)) ->
  load os full source files docs = load os full source (filter is_md files) docs /\
  load os full source files docs = load os' full source files docs.
Proof.
  intros H. split; [apply load_filter|].
  revert docs. induction files as [|f rest IH]; intros docs; [reflexivity|].
  cbn [load]. destruct (Ext f =? ".md")%string eqn:E; cbn [negb].
  - rewrite <- (H f (or_introl eq_refl) E).
    destruct (ReadFile os (PathJoin os source f)) as [b|e]; [|reflexivity].
    destruct (parse full f b); [|reflexivity].
    apply IH. intros g Hg. apply H. now right.
  - apply IH. intros g Hg. apply H. now right.
Qed.

(** A directory with a file that is no document. *)
Lemma other_entries_ignored_readme :
  load (machine ["README"; "a.md"] (fun _ => Ok "")) false "src" ["README"; "a.md"] []
  = load (machine ["README"; "a.md"] (fun _ => Ok "")) false "src" ["a.md"] [].
Proof.
  apply (other_entries_ignored (machine ["README"; "a.md"] (fun _ => Ok ""))
           (machine ["README"; "a.md"] (fun _ => Ok "")) false "src"
           ["README"; "a.md"] []).
  reflexivity.
Defined.

Lemma load_stops (os : OS) (full : bool) (source f : string) (files : list string) :
  In f files -> is_md f = true ->
  (forall b, ReadFile os (PathJoin os source f) = Ok b -> ScanErr b = true) ->
  forall docs, exists o, load os full source files docs = inl o.
Proof.
  intros Hin Hmd Hbad. induction files as [|g rest IH]; [destruct Hin|].
  intros docs. cbn [load].
  destruct (Ext g =? ".md")%string eqn:E; cbn [negb].
  - destruct (ReadFile os (PathJoin os source g)) as [b|e] eqn:Hr; [|eauto].
    destruct (parse full g b) as [d|e] eqn:Hp; [|eauto].
    destruct Hin as [->|Hin]; [|apply (IH Hin)].
    apply parse_ok_inv in Hp as [Hp _]. rewrite (Hbad b Hr) in Hp. discriminate Hp.
  - destruct Hin as [->|Hin]; [|apply (IH Hin)].
    unfold is_md in Hmd. congruence.
Qed.

(** X18: one bad document stops everything.  When the source directory lists
    an [.md] entry that cannot be read, or whose text has a line too long for
    the scanner, [main] ends with status 1 and docs.go is not written,
    whatever the other entries are. *)
Theorem bad_document_stops_main (os : OS) (args files : list string) (f : string) :
  ReadDir os (nth 1 args "") = Ok files ->
  In f files -> is_md f = true ->
  (forall b, ReadFile os (PathJoin os (nth 1 args "") f) = Ok b ->
             ScanErr b = true) ->
  status (main os args) = 1%Z /\
  forall mk path data, main os args <> Written mk path data.
Proof.
  intros Hdir Hin Hmd Hbad.
  assert (Hs : status (main os args) = 1%Z).
  { unfold main. destruct (Nat.ltb (List.length args) 3); [reflexivity|].
    unfold run. rewrite Hdir.
    destruct (load_stops os (full (read_flags args)) _ f files Hin Hmd Hbad [])
      as [o Ho].
    rewrite Ho. exact (load_exit_status _ _ _ _ _ _ Ho). }
  split; [exact Hs|]. intros mk path data E. rewrite E in Hs. discriminate Hs.
Qed.

(** A directory with an unreadable document after a good one. *)
Lemma bad_document_stops_main_unreadable :
  let os := machine ["a.md"; "b.md"]
              (fun p => if (p =? "src/a.md")%string then Ok "" else Err "denied") in
  status (main os ["mdtogo"; "src"; "dst"]) = 1%Z.
Proof.
  cbn zeta.
  apply (bad_document_stops_main _ ["mdtogo"; "src"; "dst"] ["a.md"; "b.md"] "b.md").
  - reflexivity.
  - simpl. tauto.
  - reflexivity.
  - intros b H. discriminate H.
Defined.

Lemma load_goes_on (os : OS) (full : bool) (source : string) (files : list string) :
  Forall (fun f => is_md f = true ->
                   exists b, ReadFile os (PathJoin os source f) = Ok b /\
                             ScanErr b = false) files ->
  forall docs, exists added, load os full source files docs = inr (docs ++ added).
Proof.
  induction 1 as [|f rest Hf _ IH]; intros docs.
  - exists []. now rewrite app_nil_r.
  - cbn [load]. destruct (Ext f =? ".md")%string eqn:E; cbn [negb]; [|apply IH].
    destruct (Hf E) as (b & Hb & Herr). rewrite Hb.
    rewrite (parse_passes full f b Herr). cbn zeta.
    destruct (IH (docs ++ [{| Name := name_of f;
                              Short := captured (ScanLines b);
                              Long := Join (fst (sections full false false
                                        (fences false (body (ScanLines b))))) (str LF);
                              Examples := Join (snd (sections full false false
                                        (fences false (body (ScanLines b))))) (str LF) |}]))
      as [added Ha].
    rewrite Ha, <- app_assoc. eauto.
Qed.

(** X19: what [main] writes.  Whenever [main] ends having written, there were
    at least three arguments, the second named a directory that could be
    listed, the third is the destination, the file written is docs.go under
    the destination, [os.Mkdir] was called exactly when the destination did
    not exist, and the text is the license, two line feeds, the marker, the
    package clause of the destination and, in the order of the listing, a
    line feed and the block of each [.md] entry, which is [parse] of its name
    and content. *)
Theorem output_of_main (os : OS) (args : list string) (mk : bool)
  (path data : string) :
  main os args = Written mk path data ->
  let source := nth 1 args "" in
  let dest := nth 2 args "" in
  3 <= List.length args /\
  mk = negb (Stat os dest) /\
  path = PathJoin os dest "docs.go" /\
  WriteFile os path data = None /\
  exists (files : list string) (lic : string) (docs : list doc),
    ReadDir os source = Ok files /\
    license os (licenseFile (read_flags args)) = Ok lic /\
    Forall2 (loads os (full (read_flags args)) source) (filter is_md files) docs /\
    data = (lic ++ str LF ++ str LF ++ marker ++ str LF
            ++ "package " ++ Base dest ++ str LF ++ blocks docs)%string.
Proof.
  cbn zeta. unfold main.
  destruct (Nat.ltb_spec (List.length args) 3) as [|Hlen]; [discriminate|].
  unfold run.
  destruct (ReadDir os (nth 1 args "")) as [files|e]; [|discriminate].
  destruct (load os (full (read_flags args)) (nth 1 args "") files [])
    as [o|docs] eqn:Hl.
  { intros ->. apply load_exit_status in Hl. discriminate Hl. }
  destruct (license os (licenseFile (read_flags args))) as [lic|e]; [|discriminate].
  destruct (WriteFile os _ _) eqn:Hw; [discriminate|].
  intros [= <- <- <-].
  split; [exact Hlen|]. split; [reflexivity|]. split; [reflexivity|].
  split; [exact Hw|].
  exists files, lic, docs. split; [reflexivity|]. split; [reflexivity|].
  destruct (load_documents _ _ _ _ _ _ Hl) as (added & -> & HF).
  split; [exact HF|]. rewrite render_blocks. unfold preamble.
  rewrite !append_assoc. reflexivity.
Qed.

(** One empty document, no license. *)
Lemma output_of_main_one :
  exists docs : list doc,
    main (machine ["a.md"] (fun _ => Ok "")) ["mdtogo"; "src"; "dst"; "--license=none"]
    = Written false "dst/docs.go"
        ("" ++ str LF ++ str LF ++ marker ++ str LF
         ++ "package " ++ Base "dst" ++ str LF ++ blocks docs).
Proof.
  destruct (output_of_main (machine ["a.md"] (fun _ => Ok ""))
              ["mdtogo"; "src"; "dst"; "--license=none"] false "dst/docs.go"
              (render "" "dst" [Doc "A" "" "" ""]) eq_refl)
    as (_ & _ & _ & _ & files & lic & docs & _ & Hlic & _ & Hdata).
  injection Hlic as <-. exists docs.
  transitivity (Written false "dst/docs.go" (render "" "dst" [Doc "A" "" "" ""]));
    [reflexivity | f_equal; exact Hdata].
Defined.

(** X20: when [main] succeeds.  With at least three arguments, a source
    directory that can be listed, every [.md] entry readable and without a
    line too long for the scanner, a license that can be resolved and a
    destination that can be written, [main] writes docs.go and ends with
    status 0. *)
Theorem main_succeeds (os : OS) (args files : list string) (lic : string) :
  3 <= List.length args ->
  ReadDir os (nth 1 args "") = Ok files ->
  Forall (fun f => is_md f = true ->
                   exists b, ReadFile os (PathJoin os (nth 1 args "") f) = Ok b /\
                             ScanErr b = false) files ->
  license os (licenseFile (read_flags args)) = Ok lic ->
  (forall data, WriteFile os (PathJoin os (nth 2 args "") "docs.go") data = None) ->
  status (main os args) = 0%Z /\
  exists docs,
    main os args
    = Written (negb (Stat os (nth 2 args "")))
        (PathJoin os (nth 2 args "") "docs.go") (render lic (nth 2 args "") docs).
Proof.
  intros Hlen Hdir Hfiles Hlic Hw. unfold main.
  destruct (Nat.ltb_spec (List.length args) 3) as [|_]; [lia|].
  unfold run. rewrite Hdir.
  destruct (load_goes_on os (full (read_flags args)) _ files Hfiles [])
    as [docs Hd].
  rewrite Hd, Hlic, Hw. split; [reflexivity|]. now exists ([] ++ docs).
Qed.

(** The empty source directory. *)
Lemma main_succeeds_empty :
  status (main (machine [] no_file) ["mdtogo"; "src"; "dst"]) = 0%Z.
Proof.
  apply (main_succeeds (machine [] no_file) ["mdtogo"; "src"; "dst"] []
           default_license);
    [simpl; lia | reflexivity | constructor | reflexivity | reflexivity].
Defined.

(** ** Blank lines *)

Ltac split_pos :=
  repeat match goal with
  | |- context [match ?p with xI _ => _ | xO _ => _ | xH => _ end] =>
      is_var p; destruct p
  end.

Lemma blank_width (c : ascii) (rest : string) :
  is_blank_char c = true -> space_width (String c rest) = 1.
Proof.
  unfold is_blank_char, space_width.
  destruct (N_of_ascii c) as [|p]; [discriminate|].
  split_pos; try discriminate; reflexivity.
Qed.

Lemma spacey_high (c : ascii) : (128 <= N_of_ascii c)%N -> spacey c = true.
Proof.
  intros H. unfold spacey. apply N.leb_le in H. rewrite H.
  apply Bool.orb_true_r.
Qed.

Lemma spacey_blank (c : ascii) : is_blank_char c = true -> spacey c = true.
Proof. intros H. unfold spacey. now rewrite H. Qed.

(** A white-space rune is made of [spacey] bytes. *)
Lemma space_width_lead (s : string) : lead_spacey (space_width s) s.
Proof.
  destruct s as [|b0 rest]; [exact I|].
  unfold space_width.
  destruct (N_of_ascii b0) as [|p] eqn:E0; [exact I|].
  split_pos; try exact I;
    try (cbn [lead_spacey]; unfold spacey, is_blank_char; rewrite E0;
         split; [reflexivity | exact I]).
  - destruct rest as [|b1 [|b2 rest']]; try exact I.
    destruct ((N_of_ascii b1 =? 128)%N && (N_of_ascii b2 =? 128)%N) eqn:C;
      [|exact I].
    apply andb_prop in C as [C1 C2]. apply N.eqb_eq in C1, C2.
    cbn [lead_spacey]. repeat split; apply spacey_high; lia.
  - destruct rest as [|b1 [|b2 rest']]; try exact I.
    destruct ((N_of_ascii b1 =? 154)%N && (N_of_ascii b2 =? 128)%N) eqn:C;
      [|exact I].
    apply andb_prop in C as [C1 C2]. apply N.eqb_eq in C1, C2.
    cbn [lead_spacey]. repeat split; apply spacey_high; lia.
  - destruct rest as [|b1 [|b2 rest']]; try exact I.
    destruct (N_of_ascii b1) as [|q] eqn:E1; [exact I|].
    split_pos; try exact I.
    + destruct (N_of_ascii b2 =? 159)%N eqn:C; [|exact I].
      apply N.eqb_eq in C.
      cbn [lead_spacey]. repeat split; apply spacey_high; lia.
    + match goal with |- context [if ?c then _ else _] => destruct c eqn:C end;
        [|exact I].
      cbn [lead_spacey]. repeat split; apply spacey_high; try lia.
      repeat (apply Bool.orb_prop in C; destruct C as [C|C]);
        try (apply andb_prop in C; destruct C as [C _]; apply N.leb_le in C; exact C);
        apply N.eqb_eq in C; lia.
  - destruct rest as [|b1 rest']; [exact I|].
    destruct (N_of_ascii b1) as [|q] eqn:E1; [exact I|].
    split_pos; try exact I;
      cbn [lead_spacey]; repeat split; apply spacey_high; lia.
Qed.

Lemma space_width_rev_cases (c0 : ascii) (rest : string) :
  space_width_rev (String c0 rest)
  = if is_blank_char c0 then 1
    else match rest with
         | String c1 rest' =>
             if Nat.eqb (space_width (String c1 (String c0 EmptyString))) 2 then 2
             else match rest' with
                  | String c2 _ =>
                      if Nat.eqb (space_width (String c2 (String c1 (String c0 EmptyString)))) 3
                      then 3 else 0
                  | EmptyString => 0
                  end
         | EmptyString => 0
         end.
Proof.
  unfold space_width_rev, is_blank_char.
  destruct (N_of_ascii c0) as [|p]; [reflexivity|].
  split_pos; reflexivity.
Qed.

Lemma space_width_rev_lead (r : string) : lead_spacey (space_width_rev r) r.
Proof.
  destruct r as [|c0 rest]; [exact I|].
  rewrite space_width_rev_cases.
  destruct (is_blank_char c0) eqn:B.
  { cbn [lead_spacey]. split; [now apply spacey_blank | exact I]. }
  destruct rest as [|c1 rest']; [exact I|].
  destruct (Nat.eqb (space_width (String c1 (String c0 ""))) 2) eqn:W2.
  { apply Nat.eqb_eq in W2.
    pose proof (space_width_lead (String c1 (String c0 ""))) as L.
    rewrite W2 in L. cbn [lead_spacey] in *. tauto. }
  destruct rest' as [|c2 rest'']; [exact I|].
  destruct (Nat.eqb (space_width (String c2 (String c1 (String c0 "")))) 3) eqn:W3;
    [|exact I].
  apply Nat.eqb_eq in W3.
  pose proof (space_width_lead (String c2 (String c1 (String c0 "")))) as L.
  rewrite W3 in L. cbn [lead_spacey] in *. tauto.
Qed.

(** Trimming leaves every byte that no white-space rune can hold. *)
Lemma trim_with_keeps (width : string -> nat) (c : ascii) :
  (forall s, lead_spacey (width s) s) -> spacey c = false ->
  forall s skip, lead_spacey skip s -> has_char c s = true ->
                 has_char c (trim_with width skip s) = true.
Proof.
  intros Hw Hc.
  assert (Hstep : forall a s' k, lead_spacey (S k) (String a s') ->
                    has_char c (String a s') = true ->
                    lead_spacey k s' /\ has_char c s' = true).
  { intros a s' k [Ha Hk] H. split; [exact Hk|].
    cbn [has_char] in H. destruct (a =? c)%char eqn:E; [|exact H].
    apply Ascii.eqb_eq in E. subst a. congruence. }
  induction s as [|a s' IH]; intros skip Hl H; [discriminate H|].
  cbn [trim_with]. destruct skip as [|k].
  - pose proof (Hw (String a s')) as L.
    destruct (width (String a s')) as [|k]; [exact H|].
    destruct (Hstep a s' k L H) as [L' H']. now apply IH.
  - destruct (Hstep a s' k Hl H) as [L' H']. now apply IH.
Qed.

Lemma TrimSpace_keeps (c : ascii) (s : string) :
  spacey c = false -> has_char c s = true -> has_char c (TrimSpace s) = true.
Proof.
  intros Hc H. unfold TrimSpace, rev.
  rewrite has_char_rev_onto, Bool.orb_false_r.
  apply (trim_with_keeps _ c space_width_rev_lead Hc _ 0 I).
  rewrite has_char_rev_onto, Bool.orb_false_r.
  apply (trim_with_keeps _ c space_width_lead Hc _ 0 I). exact H.
Qed.

Lemma TrimSpace_blank (s : string) : only_blank_chars s = true -> TrimSpace s = "".
Proof.
  intros H. unfold TrimSpace.
  replace (trim_with space_width 0 s) with "".
  - reflexivity.
  - symmetry. induction s as [|c s IH]; [reflexivity|].
    cbn [only_blank_chars] in H. apply andb_prop in H as [Hc Hs].
    cbn [trim_with]. rewrite (blank_width c s Hc). exact (IH Hs).
Qed.

(** X21: which lines the capture of the short description skips.  After a
    first line that starts with [## ], lines made of spaces, tabs and other
    ASCII white space only are passed over, and the first line that holds an
    ASCII character other than white space becomes [Short]. *)
Theorem capture_by_characters (full : bool) (name value : string) (d : doc)
  (heading text : string) (blanks rest : list string) (c : ascii) :
  parse full name value = Ok d ->
  ScanLines value = heading :: blanks ++ text :: rest ->
  HasPrefix heading "## " = true ->
  Forall (fun b => only_blank_chars b = true) blanks ->
  has_char c text = true -> spacey c = false ->
  Short d = text.
Proof.
  intros H Hlines Hh Hb Hc Hs.
  destruct (parse_ok_inv _ _ _ _ H) as (_ & _ & -> & _).
  rewrite Hlines. cbn [captured]. rewrite Hh.
  rewrite (first_text_skips blanks rest text); [reflexivity| |].
  - eapply Forall_impl; [|exact Hb]. intros b. apply TrimSpace_blank.
  - intros E. pose proof (TrimSpace_keeps c text Hs Hc) as K.
    rewrite E in K. discriminate K.
Qed.

(** A heading followed by a line of spaces and a tab. *)
Lemma capture_by_characters_spaces :
  exists d : doc,
    parse false "x.md" (text_of ["## x"; ("  " ++ str TAB)%string; "  Short text."]) = Ok d /\
    Short d = "  Short text.".
Proof.
  eexists. split; [vm_compute; reflexivity|].
  apply (capture_by_characters false "x.md"
           (text_of ["## x"; ("  " ++ str TAB)%string; "  Short text."]) _
           "## x" "  Short text." [("  " ++ str TAB)%string] [] "S");
    try (vm_compute; reflexivity). repeat constructor.
Defined.

(** ** The block of a document *)

(** X22: the block of a document is the bare line feed exactly when its three
    fields are empty; with any text it starts with a declaration. *)
Theorem bare_block (d : doc) :
  String_ d = str LF <-> Short d = "" /\ Long d = "" /\ Examples d = "".
Proof.
  unfold String_, parts.
  destruct (Short d =? "")%string eqn:Es, (Long d =? "")%string eqn:El,
    (Examples d =? "")%string eqn:Ee; cbn [negb app].
  1: { apply String.eqb_eq in Es, El, Ee. split; [tauto | reflexivity]. }
  all: split; [intros H; simpl in H; discriminate H|].
  all: intros (Hs & Hl & He);
    rewrite ?Hs, ?Hl, ?He in *; discriminate.
Qed.

(** A document with a short description only. *)
Lemma bare_block_short : String_ (Doc "A" "text" "" "") <> str LF.
Proof.
  intros H. apply (proj1 (bare_block (Doc "A" "text" "" ""))) in H.
  destruct H as [H _]. discriminate H.
Defined.
